(** * DemoSceneScript: the UI bridge of the voice-chat demo scene

    A shallow embedding of [src/sample-workspace/src/scenes/demoSceneScript.ts].

    The script is glue code: it mutates a handful of DOM elements, the fields
    of the script object ([this.lex], [this.messageContainerEl], ...) and calls
    external collaborators (the Lex voice feature, the avatar host, [alert],
    [console.log], [showUiScreen]).  The embedding threads one [World] value
    through every method: the DOM and the object's fields are state, and each
    call to a collaborator is appended to a [trace].  A method is a state
    transformer that completes normally or throws, as JavaScript does when a
    property of [null]/[undefined] is accessed. *)

From Stdlib Require Import String Ascii List Bool Lia.
From stdpp Require Import base option list gmap strings.

Local Open Scope string_scope.

(** ** JavaScript completions *)

(** A thrown value.  Everything this script can catch is an [Error] object
    (the [TypeError] of a null dereference, the [DOMException] or [Error] a
    rejected microphone request carries); only its [message] is inspected. *)
Module Error.
Record t := Make { message : string }.
End Error.

Inductive Completion (A : Type) : Type :=
| Normal (a : A)
| Throw (e : Error.t).
Arguments Normal {A} a.
Arguments Throw {A} e.

(** The [TypeError] raised by reading or writing a property of
    [null]/[undefined]; [what] is the expression that was null. *)
Definition TypeError (what : string) : Error.t :=
  Error.Make ("Cannot read properties of undefined: " +:+ what).

(** The double-quote character, for the two messages that contain it. *)
Definition dquote : string := String (ascii_of_nat 34) EmptyString.

(** ** The DOM surface *)

(** The closures the script installs as DOM event handlers, named after the
    button and the event they are written for. *)
Inductive Handler :=
| StartButtonClick       (* () => this.startMainExperience() *)
| EnableMicButtonClick   (* () => this.acquireMicrophoneAccess() *)
| TalkButtonMouseDown    (* () => { log; this.lex.beginVoiceRecording() } *)
| TalkButtonMouseUp.     (* () => { log; this.lex.endVoiceRecording() } *)

Record HTMLElement := MkElement {
  classList : list string;
  innerText : string;
  onclick : option Handler;
  onmousedown : option Handler;
  onmouseup : option Handler
}.

(** [DOMTokenList.add]: the token is appended unless it is present. *)
Definition classList_add (tok : string) (l : list string) : list string :=
  if bool_decide (tok ∈ l) then l else l ++ [tok].

(** [DOMTokenList.remove]: every occurrence of the token goes. *)
Definition classList_remove (tok : string) (l : list string) : list string :=
  filter (λ t, t ≠ tok) l.

Definition el_classList_add (tok : string) (e : HTMLElement) : HTMLElement :=
  MkElement (classList_add tok (classList e)) (innerText e)
            (onclick e) (onmousedown e) (onmouseup e).

Definition el_classList_remove (tok : string) (e : HTMLElement) : HTMLElement :=
  MkElement (classList_remove tok (classList e)) (innerText e)
            (onclick e) (onmousedown e) (onmouseup e).

Definition el_set_innerText (s : string) (e : HTMLElement) : HTMLElement :=
  MkElement (classList e) s (onclick e) (onmousedown e) (onmouseup e).

Definition el_set_onclick (h : Handler) (e : HTMLElement) : HTMLElement :=
  MkElement (classList e) (innerText e) (Some h) (onmousedown e) (onmouseup e).

Definition el_set_onmousedown (h : Handler) (e : HTMLElement) : HTMLElement :=
  MkElement (classList e) (innerText e) (onclick e) (Some h) (onmouseup e).

Definition el_set_onmouseup (h : Handler) (e : HTMLElement) : HTMLElement :=
  MkElement (classList e) (innerText e) (onclick e) (onmousedown e) (Some h).

(** A reference to an element, as [getElementById] hands it out: the [id]
    the element is registered under.  Nothing in the script removes an
    element, so a reference stays valid. *)
Definition ElRef := string.

(** ** External collaborators *)

(** [IAwsConnector]: the credential provider found in the scene; its two
    getters are all the script uses. *)
Record IAwsConnector := MkConnector {
  getRegion : string;
  getCredentials : string
}.

(** [SumerianHost]: its [host] is created asynchronously, so it may still be
    undefined when the script runs. *)
Inductive HostObject := HostWithTextToSpeech.
Record SumerianHost := MkSumerianHost { host : option HostObject }.

(** [AwsFeatures.LexFeature.EVENTS]. *)
Inductive LexEvent := lexResponseReady | recordBegin | recordEnd.

#[global] Instance LexEvent_eq_dec : EqDecision LexEvent.
Proof. solve_decision. Defined.

(** The Lex response, of which the script reads two properties. *)
Module Response.
Record t := Make { inputTranscript : string; message : string }.

#[global] Instance eq_dec : EqDecision t.
Proof. solve_decision. Defined.
End Response.

(** The arrow functions handed to [lex.listenTo], named after the method
    each one forwards to. *)
Inductive Callback :=
| CallHandleLexResponse         (* response => this.handleLexResponse(response) *)
| CallHideUserMessages          (* () => this.hideUserMessages() *)
| CallDisplayProcessingMessage. (* () => this.displayProcessingMessage() *)

#[global] Instance Callback_eq_dec : EqDecision Callback.
Proof. solve_decision. Defined.

(** [new AwsFeatures.LexFeature(lexClient, botConfig)] and the listeners
    registered on it so far, oldest first. *)
Record LexFeature := MkLex {
  botName : string;
  botAlias : string;
  listeners : list (LexEvent * Callback)
}.

Inductive LogArg :=
| LogString (s : string)
| LogResponse (r : option Response.t).

#[global] Instance LogArg_eq_dec : EqDecision LogArg.
Proof. solve_decision. Defined.

(** Calls that leave the script, in the order they are made. *)
Inductive Effect :=
| Alert (msg : string)
| ConsoleLog (arg : LogArg)
| SetTimeout (ms : nat)
| ShowUiScreen (id : string)
| NewLexRuntime
| NewLexFeature (name alias : string)
| ListenTo (ev : LexEvent) (cb : Callback)
| BeginVoiceRecording
| EndVoiceRecording
| EnableMicInput
| Play (text : string).

#[global] Instance Effect_eq_dec : EqDecision Effect.
Proof. solve_decision. Defined.

(** ** The world: browser, scene and script object *)

Record World := MkWorld {
  location_host : string;                 (* window.location.host *)
  document : gmap string HTMLElement;     (* elements, by id *)
  visibleScreen : option string;          (* the screen showUiScreen selected *)
  AWS_config_region : option string;
  AWS_config_credentials : option string;
  awsConnector : option IAwsConnector;    (* this.awsConnector *)
  hostNode : option SumerianHost;         (* this.hostNode *)
  lex : option LexFeature;                (* this.lex *)
  messageContainerEl : option ElRef;      (* this.messageContainerEl *)
  transcriptTextEl : option ElRef;        (* this.transcriptTextEl *)
  timers : nat;                           (* pending onStart timeouts *)
  micRequests : nat;                      (* awaited enableMicInput promises *)
  trace : list Effect
}.

Definition set_document (f : gmap string HTMLElement → gmap string HTMLElement)
    (w : World) : World :=
  MkWorld (location_host w) (f (document w)) (visibleScreen w)
    (AWS_config_region w) (AWS_config_credentials w) (awsConnector w)
    (hostNode w) (lex w) (messageContainerEl w) (transcriptTextEl w)
    (timers w) (micRequests w) (trace w).

Definition set_visibleScreen (s : option string) (w : World) : World :=
  MkWorld (location_host w) (document w) s
    (AWS_config_region w) (AWS_config_credentials w) (awsConnector w)
    (hostNode w) (lex w) (messageContainerEl w) (transcriptTextEl w)
    (timers w) (micRequests w) (trace w).

Definition set_AWS_config_region (r : option string) (w : World) : World :=
  MkWorld (location_host w) (document w) (visibleScreen w)
    r (AWS_config_credentials w) (awsConnector w)
    (hostNode w) (lex w) (messageContainerEl w) (transcriptTextEl w)
    (timers w) (micRequests w) (trace w).

Definition set_AWS_config_credentials (c : option string) (w : World) : World :=
  MkWorld (location_host w) (document w) (visibleScreen w)
    (AWS_config_region w) c (awsConnector w)
    (hostNode w) (lex w) (messageContainerEl w) (transcriptTextEl w)
    (timers w) (micRequests w) (trace w).

Definition set_lex (l : option LexFeature) (w : World) : World :=
  MkWorld (location_host w) (document w) (visibleScreen w)
    (AWS_config_region w) (AWS_config_credentials w) (awsConnector w)
    (hostNode w) l (messageContainerEl w) (transcriptTextEl w)
    (timers w) (micRequests w) (trace w).

Definition set_messageContainerEl (r : option ElRef) (w : World) : World :=
  MkWorld (location_host w) (document w) (visibleScreen w)
    (AWS_config_region w) (AWS_config_credentials w) (awsConnector w)
    (hostNode w) (lex w) r (transcriptTextEl w)
    (timers w) (micRequests w) (trace w).

Definition set_transcriptTextEl (r : option ElRef) (w : World) : World :=
  MkWorld (location_host w) (document w) (visibleScreen w)
    (AWS_config_region w) (AWS_config_credentials w) (awsConnector w)
    (hostNode w) (lex w) (messageContainerEl w) r
    (timers w) (micRequests w) (trace w).

Definition set_timers (n : nat) (w : World) : World :=
  MkWorld (location_host w) (document w) (visibleScreen w)
    (AWS_config_region w) (AWS_config_credentials w) (awsConnector w)
    (hostNode w) (lex w) (messageContainerEl w) (transcriptTextEl w)
    n (micRequests w) (trace w).

Definition set_micRequests (n : nat) (w : World) : World :=
  MkWorld (location_host w) (document w) (visibleScreen w)
    (AWS_config_region w) (AWS_config_credentials w) (awsConnector w)
    (hostNode w) (lex w) (messageContainerEl w) (transcriptTextEl w)
    (timers w) n (trace w).

Definition log_effect (e : Effect) (w : World) : World :=
  MkWorld (location_host w) (document w) (visibleScreen w)
    (AWS_config_region w) (AWS_config_credentials w) (awsConnector w)
    (hostNode w) (lex w) (messageContainerEl w) (transcriptTextEl w)
    (timers w) (micRequests w) (trace w ++ [e]).

(** ** The monad of script code: state, with JavaScript exceptions *)

Definition M (A : Type) : Type := World → Completion A * World.

#[global] Instance M_ret : MRet M := λ A a w, (Normal a, w).

#[global] Instance M_bind : MBind M := λ A B k m w,
  match m w with
  | (Normal a, w') => k a w'
  | (Throw e, w') => (Throw e, w')
  end.

Definition throw {A} (e : Error.t) : M A := λ w, (Throw e, w).

(** [try { m } catch (e) { h e }]. *)
Definition try_catch {A} (m : M A) (h : Error.t → M A) : M A := λ w,
  match m w with
  | (Throw e, w') => h e w'
  | r => r
  end.

Definition gets {A} (f : World → A) : M A := λ w, (Normal (f w), w).
Definition modify (f : World → World) : M unit := λ w, (Normal tt, f w).
Definition effect (e : Effect) : M unit := modify (log_effect e).

(** The world a computation leaves behind, however it completes. *)
Definition exec {A} (m : M A) (w : World) : World := (m w).2.

(** What a computation completes with. *)
Definition completion {A} (m : M A) (w : World) : Completion A := (m w).1.

(** The calls a computation added to the trace. *)
Definition emitted {A} (m : M A) (w : World) : list Effect :=
  drop (length (trace w)) (trace (exec m w)).

(** ** Browser and collaborator primitives *)

Definition alert (msg : string) : M unit := effect (Alert msg).

Definition console_log (a : LogArg) : M unit := effect (ConsoleLog a).

(** [setTimeout(callback, ms)]; the only callback this script schedules is
    the one of [onStart], so pending timers are counted. *)
Definition setTimeout (ms : nat) : M unit :=
  effect (SetTimeout ms);;
  modify (λ w, set_timers (S (timers w)) w).

(** Modelled from the spec: [showUiScreen] lives in [./domUtils], which is not
    among the sources.  The spec gives its contract: it takes a screen-name
    string and makes exactly that one named screen visible. *)
Definition showUiScreen (id : string) : M unit :=
  effect (ShowUiScreen id);;
  modify (set_visibleScreen (Some id)).

(** [document.getElementById(id)]: a reference, or [null]. *)
Definition ref_of (d : gmap string HTMLElement) (id : string) : option ElRef :=
  match d !! id with
  | Some _ => Some id
  | None => None
  end.

Definition getElementById (id : string) : M (option ElRef) :=
  gets (λ w, ref_of (document w) id).

(** A property write or a method call on an element reference held in a
    variable or field; on [null]/[undefined] it is a [TypeError]. *)
Definition on_element (what : string) (r : option ElRef)
    (f : HTMLElement → HTMLElement) : M unit :=
  match r with
  | None => throw (TypeError what)
  | Some id => modify (set_document (alter f id))
  end.

(** [this.awsConnector.getRegion()] and [.getCredentials()]. *)
Definition awsConnector_getRegion : M string :=
  c ← gets awsConnector;
  match c with
  | None => throw (TypeError "this.awsConnector")
  | Some c => mret (getRegion c)
  end.

Definition awsConnector_getCredentials : M string :=
  c ← gets awsConnector;
  match c with
  | None => throw (TypeError "this.awsConnector")
  | Some c => mret (getCredentials c)
  end.

(** [this.lex.listenTo(ev, cb)]: the listener is added after those already
    registered; registering the same function again adds it again. *)
Definition lex_listenTo (ev : LexEvent) (cb : Callback) : M unit :=
  l ← gets lex;
  match l with
  | None => throw (TypeError "this.lex")
  | Some l =>
      effect (ListenTo ev cb);;
      modify (set_lex (Some (MkLex (botName l) (botAlias l)
                                   (listeners l ++ [(ev, cb)]))))
  end.

Definition lex_beginVoiceRecording : M unit :=
  l ← gets lex;
  match l with
  | None => throw (TypeError "this.lex")
  | Some _ => effect BeginVoiceRecording
  end.

Definition lex_endVoiceRecording : M unit :=
  l ← gets lex;
  match l with
  | None => throw (TypeError "this.lex")
  | Some _ => effect EndVoiceRecording
  end.

(** [this.lex.enableMicInput()]: the request is issued and its promise is
    pending until the browser settles it. *)
Definition lex_enableMicInput : M unit :=
  l ← gets lex;
  match l with
  | None => throw (TypeError "this.lex")
  | Some _ =>
      effect EnableMicInput;;
      modify (λ w, set_micRequests (S (micRequests w)) w)
  end.

(** [this.hostNode.host.TextToSpeechFeature.play(text)]. *)
Definition TextToSpeechFeature_play (text : string) : M unit :=
  n ← gets hostNode;
  match n with
  | None => throw (TypeError "this.hostNode")
  | Some n =>
      match host n with
      | None => throw (TypeError "this.hostNode.host")
      | Some HostWithTextToSpeech => effect (Play text)
      end
  end.

(** ** The methods of [DemoSceneScript] *)

Definition previewNotice : string :=
  "Due to limitations of the Babylon.JS Editor, this demo can not be run from " +:+
  "the Preview panel. Instead, use any of the options from the " +:+
  dquote +:+ "Run" +:+ dquote +:+ " menu.".

Definition greeting : string :=
  "Hello. How can I help?  You can say things like, " +:+ dquote +:+
  "I'd like to rent a car," +:+ dquote +:+ " or, " +:+ dquote +:+
  "Help me book a hotel" +:+ dquote +:+ ".".

Definition startMainExperience : M unit :=
  showUiScreen "chatbotUiScreen";;
  TextToSpeechFeature_play greeting.

(** The text of the template literal in [displaySpeechInputTranscript]. *)
Definition quoted (text : string) : string := "“" +:+ text +:+ "”".

Definition displaySpeechInputTranscript (text : string) : M unit :=
  el ← gets transcriptTextEl;
  on_element "this.transcriptTextEl" el (el_set_innerText (quoted text));;
  el ← gets messageContainerEl;
  on_element "this.messageContainerEl" el (el_classList_add "showingMessage").

Definition displayProcessingMessage : M unit :=
  el ← gets messageContainerEl;
  on_element "this.messageContainerEl" el (el_classList_add "processing").

Definition hideUserMessages : M unit :=
  el ← gets messageContainerEl;
  on_element "this.messageContainerEl" el (el_classList_remove "showingMessage").

(** Reading a property of the (untyped) [response] argument. *)
Definition response_prop {A} (response : option Response.t)
    (p : Response.t → A) : M A :=
  match response with
  | None => throw (TypeError "response")
  | Some r => mret (p r)
  end.

Definition handleLexResponse (response : option Response.t) : M unit :=
  console_log (LogResponse response);;
  el ← gets messageContainerEl;
  on_element "this.messageContainerEl" el (el_classList_remove "processing");;
  inputTranscript ← response_prop response Response.inputTranscript;
  displaySpeechInputTranscript inputTranscript;;
  message ← response_prop response Response.message;
  TextToSpeechFeature_play message.

(** The [catch] block of [acquireMicrophoneAccess]. *)
Definition acquireMicrophoneAccess_catch (e : Error.t) : M unit :=
  if bool_decide (Error.message e = "Permission dismissed")
  then showUiScreen "micPermissionDismissedScreen"
  else showUiScreen "micDisabledScreen".

(** [acquireMicrophoneAccess] up to its [await]: the part that runs when the
    method is called.  A [TypeError] from [this.lex] is thrown inside the
    [try] and so reaches the [catch] block at once. *)
Definition acquireMicrophoneAccess : M unit :=
  showUiScreen "micInitScreen";;
  try_catch lex_enableMicInput acquireMicrophoneAccess_catch.

(** How the awaited [enableMicInput] promise settles. *)
Inductive MicResult :=
| MicResolved
| MicRejected (e : Error.t).

(** [acquireMicrophoneAccess] from its [await] on. *)
Definition acquireMicrophoneAccess_resume (r : MicResult) : M unit :=
  match r with
  | MicResolved =>
      console_log (LogString "Microphone ready");;
      showUiScreen "startScreen"
  | MicRejected e => acquireMicrophoneAccess_catch e
  end.

Definition initUi : M unit :=
  h ← gets location_host;
  let isRunningInViewport := bool_decide (h = "") in
  if isRunningInViewport then
    alert previewNotice
  else
    startButton ← getElementById "startButton";
    on_element "startButton" startButton (el_set_onclick StartButtonClick);;
    enableMicButton ← getElementById "enableMicButton";
    on_element "enableMicButton" enableMicButton
      (el_set_onclick EnableMicButtonClick).

Definition initConversationManagement : M unit :=
  talkButton ← getElementById "talkButton";
  on_element "talkButton" talkButton (el_set_onmousedown TalkButtonMouseDown);;
  on_element "talkButton" talkButton (el_set_onmouseup TalkButtonMouseUp);;
  lex_listenTo lexResponseReady CallHandleLexResponse;;
  lex_listenTo recordBegin CallHideUserMessages;;
  lex_listenTo recordEnd CallDisplayProcessingMessage;;
  el ← getElementById "userMessageContainer";
  modify (set_messageContainerEl el);;
  el ← getElementById "transcriptText";
  modify (set_transcriptTextEl el).

Definition initChatbot : M unit :=
  region ← awsConnector_getRegion;
  modify (set_AWS_config_region (Some region));;
  credentials ← awsConnector_getCredentials;
  modify (set_AWS_config_credentials (Some credentials));;
  effect NewLexRuntime;;
  effect (NewLexFeature "BookTrip" "Dev");;
  modify (set_lex (Some (MkLex "BookTrip" "Dev" [])));;
  lex_listenTo lexResponseReady CallHandleLexResponse;;
  initConversationManagement.

(** [onInitialize] has an empty body. *)
Definition onInitialize : M unit := mret tt.

Definition onStart : M unit := setTimeout (5 * 1000).

(** The function [onStart] hands to [setTimeout]. *)
Definition onStart_timeout : M unit :=
  initChatbot;;
  initUi;;
  acquireMicrophoneAccess.

(** *** Keyboard input *)

Inductive KeyboardEventTypes := KEYDOWN | KEYUP.

#[global] Instance KeyboardEventTypes_eq_dec : EqDecision KeyboardEventTypes.
Proof. solve_decision. Defined.

Definition keyDownHandler : M unit := acquireMicrophoneAccess.

Definition talkKeyDownHandler : M unit := mret tt.

Definition talkKeyUpHandler : M unit := console_log (LogString "End listening.").

(** ** Events of a session *)

(** What runs when a DOM handler installed by the script is invoked. *)
Definition run_handler (h : Handler) : M unit :=
  match h with
  | StartButtonClick => startMainExperience
  | EnableMicButtonClick => acquireMicrophoneAccess
  | TalkButtonMouseDown =>
      console_log (LogString "Begin recording");;
      lex_beginVoiceRecording
  | TalkButtonMouseUp =>
      console_log (LogString "End recording");;
      lex_endVoiceRecording
  end.

(** The browser delivers a mouse event to the element [id]: the handler in
    the matching slot runs, if the element exists and one is installed. *)
Definition fire (slot : HTMLElement → option Handler) (id : string) : M unit :=
  d ← gets document;
  match d !! id with
  | Some e =>
      match slot e with
      | Some h => run_handler h
      | None => mret tt
      end
  | None => mret tt
  end.

Definition click : string → M unit := fire onclick.
Definition mousedown : string → M unit := fire onmousedown.
Definition mouseup : string → M unit := fire onmouseup.

(** Modelled from the spec: the [@onKeyboardEvent(key, type)] decorator comes
    from [./decorators], which is not among the sources.  The spec describes
    the decorated methods as triggered by pressing (or releasing) their
    designated key: the method runs for a keyboard event of that key and
    type. *)
Definition keyboard (key : string) (type : KeyboardEventTypes) : M unit :=
  if bool_decide (key = "z" ∧ type = KEYDOWN) then keyDownHandler
  else if bool_decide (key = " " ∧ type = KEYDOWN) then talkKeyDownHandler
  else if bool_decide (key = " " ∧ type = KEYUP) then talkKeyUpHandler
  else mret tt.

(** What the voice feature emits. *)
Inductive LexMessage :=
| ResponseReady (r : Response.t)
| RecordBegin
| RecordEnd.

Definition event_of (m : LexMessage) : LexEvent :=
  match m with
  | ResponseReady _ => lexResponseReady
  | RecordBegin => recordBegin
  | RecordEnd => recordEnd
  end.

Definition payload_of (m : LexMessage) : option Response.t :=
  match m with
  | ResponseReady r => Some r
  | RecordBegin | RecordEnd => None
  end.

Definition run_callback (cb : Callback) (payload : option Response.t) : M unit :=
  match cb with
  | CallHandleLexResponse => handleLexResponse payload
  | CallHideUserMessages => hideUserMessages
  | CallDisplayProcessingMessage => displayProcessingMessage
  end.

Fixpoint run_callbacks (cbs : list Callback) (payload : option Response.t)
    : M unit :=
  match cbs with
  | [] => mret tt
  | cb :: rest => run_callback cb payload;; run_callbacks rest payload
  end.

Definition callbacks_for (ev : LexEvent) (ls : list (LexEvent * Callback))
    : list Callback :=
  (filter (λ p, p.1 = ev) ls).*2.

(** Modelled from the spec: the voice feature's event dispatch is library
    code.  The spec gives its contract: listeners are subscribed by a
    registration call and the feature emits response-ready (carrying the
    response), record-begin and record-end.  Each listener registered for the
    emitted event is called, in registration order; an exception from a
    listener ends the dispatch. *)
Definition lex_emit (m : LexMessage) : M unit :=
  l ← gets lex;
  match l with
  | None => mret tt
  | Some l => run_callbacks (callbacks_for (event_of m) (listeners l)) (payload_of m)
  end.

Inductive Event :=
| SceneStarts
| TimerFires
| Click (id : string)
| MouseDown (id : string)
| MouseUp (id : string)
| Keyboard (key : string) (type : KeyboardEventTypes)
| LexEmits (m : LexMessage)
| MicSettles (r : MicResult).

Definition dispatch (ev : Event) : M unit :=
  match ev with
  | SceneStarts => onStart
  | TimerFires =>
      n ← gets timers;
      match n with
      | O => mret tt
      | S n => modify (set_timers n);; onStart_timeout
      end
  | Click id => click id
  | MouseDown id => mousedown id
  | MouseUp id => mouseup id
  | Keyboard key type => keyboard key type
  | LexEmits m => lex_emit m
  | MicSettles r =>
      n ← gets micRequests;
      match n with
      | O => mret tt
      | S n => modify (set_micRequests n);; acquireMicrophoneAccess_resume r
      end
  end.

(** One turn of the event loop: an exception that escapes a handler is
    reported by the runtime and the session goes on. *)
Definition step (w : World) (ev : Event) : World := exec (dispatch ev) w.

Definition run (evs : list Event) (w : World) : World := foldl step w evs.

(** ** Concrete scenes, for evaluation *)

Definition blank : HTMLElement := MkElement [] "" None None None.

(** The page of the demo: the five elements the script looks up. *)
Definition demoPage : gmap string HTMLElement :=
  list_to_map [("startButton", blank); ("enableMicButton", blank);
               ("talkButton", blank);
               ("userMessageContainer", blank); ("transcriptText", blank)].

(** The scene right after construction, loaded from [location_host]. *)
Definition newScene (location_host : string) : World :=
  MkWorld location_host demoPage None None None
    (Some (MkConnector "us-west-2" "credentials"))
    (Some (MkSumerianHost (Some HostWithTextToSpeech)))
    None None None 0 0 [].

Definition standalone : World := newScene "localhost:1338".
Definition preview : World := newScene "".

(** The standalone scene once the [onStart] timeout has run. *)
Definition started : World := run [SceneStarts; TimerFires] standalone.

(** ** Vocabulary of the properties *)

(** The screen [id] is the one on display, and selecting it was the last
    call the script made. *)
Definition shown (id : string) (w : World) : Prop :=
  visibleScreen w = Some id ∧ last (trace w) = Some (ShowUiScreen id).

(** The avatar host can speak: [this.hostNode.host] is there. *)
Definition hostReady (w : World) : Prop :=
  hostNode w = Some (MkSumerianHost (Some HostWithTextToSpeech)).

(** A property of the world that a piece of script code preserves, however
    the code completes. *)
Definition stable (P : World → Prop) {A} (m : M A) : Prop :=
  ∀ w, P w → P (exec m w).

(** The listeners [initChatbot] leaves on the voice feature when it runs to
    its end: one from [initChatbot] itself, three from
    [initConversationManagement]. *)
Definition registered : list (LexEvent * Callback) :=
  [(lexResponseReady, CallHandleLexResponse);
   (lexResponseReady, CallHandleLexResponse);
   (recordBegin, CallHideUserMessages);
   (recordEnd, CallDisplayProcessingMessage)].

(** The scene before any script code has run: no voice feature yet, and a
    page whose elements carry no handler of the script. *)
Definition fresh (w : World) : Prop :=
  lex w = None
  ∧ ∀ id e, document w !! id = Some e →
      onclick e = None ∧ onmousedown e = None ∧ onmouseup e = None.

(** What holds of the voice feature once it exists: either
    [initConversationManagement] stopped at a missing talk button, or all
    four listeners are registered and both element references were taken. *)
Definition wired (w : World) : Prop :=
  ∀ l, lex w = Some l →
    (listeners l = [(lexResponseReady, CallHandleLexResponse)]
     ∧ document w !! "talkButton" = None)
    ∨ (listeners l = registered
       ∧ messageContainerEl w = ref_of (document w) "userMessageContainer"
       ∧ transcriptTextEl w = ref_of (document w) "transcriptText").

(** Each handler sits only where the script installs it. *)
Definition handlers_in_place (w : World) : Prop :=
  ∀ id e, document w !! id = Some e →
    (∀ h, onclick e = Some h →
          (h = StartButtonClick ∧ id = "startButton")
          ∨ (h = EnableMicButtonClick ∧ id = "enableMicButton"))
    ∧ (∀ h, onmousedown e = Some h → h = TalkButtonMouseDown ∧ id = "talkButton")
    ∧ (∀ h, onmouseup e = Some h → h = TalkButtonMouseUp ∧ id = "talkButton").

(** The parts of the world no script code writes: the location, the scene
    nodes, and which elements the page has. *)
Definition same_scene (w0 w : World) : Prop :=
  location_host w = location_host w0
  ∧ hostNode w = hostNode w0
  ∧ awsConnector w = awsConnector w0
  ∧ ∀ id, ref_of (document w) id = ref_of (document w0) id.

(** The fields only [initChatbot] and [initConversationManagement] write. *)
Definition same_wiring (w0 w : World) : Prop :=
  lex w = lex w0
  ∧ messageContainerEl w = messageContainerEl w0
  ∧ transcriptTextEl w = transcriptTextEl w0.

(** The trace grew, and not by the call [x]. *)
Definition grew_without (x : Effect) (w0 w : World) : Prop :=
  ∃ es : list Effect, trace w = (trace w0 ++ es)%list ∧ x ∉ es.

(** The trace only grew. *)
Definition grew (w0 w : World) : Prop :=
  ∃ es : list Effect, trace w = (trace w0 ++ es)%list.

(** Still in the preview panel, and no click handler differs from [w0]'s. *)
Definition preview_click_wiring (w0 w : World) : Prop :=
  location_host w = ""
  ∧ ∀ id, onclick <$> (document w !! id) = onclick <$> (document w0 !! id).

(** The class tokens the script never names: all but [processing] and
    [showingMessage]. *)
Definition other_tokens (l : list string) : list string :=
  filter (λ t, t ≠ "processing" ∧ t ≠ "showingMessage") l.

(** Every element has the tokens the script never names, in the order, it
    has in [w0]. *)
Definition same_other_tokens (w0 w : World) : Prop :=
  ∀ id, (other_tokens ∘ classList) <$> (document w !! id) =
        (other_tokens ∘ classList) <$> (document w0 !! id).

(** Every element has the text it has in [w0]. *)
Definition same_text (w0 w : World) : Prop :=
  ∀ id, innerText <$> (document w !! id) = innerText <$> (document w0 !! id).

(** A talk-button handler is installed only once the voice feature exists. *)
Definition talk_needs_lex (w : World) : Prop :=
  (∃ id e, document w !! id = Some e
           ∧ (is_Some (onmousedown e) ∨ is_Some (onmouseup e))) →
  is_Some (lex w).

(** No element has a click handler. *)
Definition no_click_handlers (w : World) : Prop :=
  ∀ id e, document w !! id = Some e → onclick e = None.



(** * Properties *)

Example greeting_text : String.length greeting = 102 ∧ String.length previewNotice = 146.
Proof. split; reflexivity. Qed.

Example started_trace :
  trace started =
    [SetTimeout 5000; NewLexRuntime; NewLexFeature "BookTrip" "Dev";
     ListenTo lexResponseReady CallHandleLexResponse;
     ListenTo lexResponseReady CallHandleLexResponse;
     ListenTo recordBegin CallHideUserMessages;
     ListenTo recordEnd CallDisplayProcessingMessage;
     ShowUiScreen "micInitScreen"; EnableMicInput].
Proof. vm_compute. reflexivity. Qed.

(** ** Class lists *)

Lemma classList_add_elem tok l : tok ∈ classList_add tok l.
Proof.
  unfold classList_add. case_bool_decide; [done|].
  apply elem_of_app. right. apply list_elem_of_singleton. done.
Qed.

Lemma classList_remove_elem tok l : tok ∉ classList_remove tok l.
Proof.
  unfold classList_remove. rewrite list_elem_of_filter. tauto.
Qed.

Lemma classList_add_elem_ne tok tok' l :
  tok' ∈ classList_add tok l ↔ tok' = tok ∨ tok' ∈ l.
Proof.
  unfold classList_add. case_bool_decide.
  - split; [auto|]. intros [->|?]; done.
  - rewrite elem_of_app, list_elem_of_singleton. tauto.
Qed.

Lemma classList_add_idemp tok l :
  classList_add tok (classList_add tok l) = classList_add tok l.
Proof.
  unfold classList_add at 1.
  rewrite bool_decide_eq_true_2; [done|]. apply classList_add_elem.
Qed.

Lemma classList_remove_idemp tok l :
  classList_remove tok (classList_remove tok l) = classList_remove tok l.
Proof.
  unfold classList_remove. rewrite list_filter_filter.
  apply list_filter_iff. tauto.
Qed.

Lemma classList_remove_add tok tok' l :
  tok ≠ tok' →
  classList_remove tok (classList_add tok' l) =
  classList_add tok' (classList_remove tok l).
Proof.
  intros Hne. unfold classList_add.
  assert (tok' ∈ classList_remove tok l ↔ tok' ∈ l) as Hin.
  { unfold classList_remove. rewrite list_elem_of_filter. intuition congruence. }
  case_bool_decide.
  - rewrite bool_decide_eq_true_2; [done|]. by apply Hin.
  - rewrite bool_decide_eq_false_2 by (by rewrite Hin).
    unfold classList_remove. rewrite filter_app. f_equal.
    rewrite filter_cons_True; [done|]. congruence.
Qed.

(** Clearing [processing] and then marking [showingMessage] a second time
    changes nothing. *)
Lemma response_classes_idemp l :
  classList_add "showingMessage" (classList_remove "processing"
    (classList_add "showingMessage" (classList_remove "processing" l))) =
  classList_add "showingMessage" (classList_remove "processing" l).
Proof.
  rewrite classList_remove_add by done.
  by rewrite classList_remove_idemp, classList_add_idemp.
Qed.

Lemma alter_idemp (f : HTMLElement → HTMLElement) (i : string)
    (d : gmap string HTMLElement) :
  (∀ e, f (f e) = f e) → alter f i (alter f i d) = alter f i d.
Proof.
  intros Hf. rewrite alter_alter_eq. apply alter_ext. intros e _. apply Hf.
Qed.

(** The three DOM writes of [handleLexResponse], done twice, leave every
    element as doing them once does. *)
Lemma response_dom_idemp (m t : ElRef) (s : string)
    (d : gmap string HTMLElement) :
  let writes d :=
    alter (el_classList_add "showingMessage") m
      (alter (el_set_innerText s) t
         (alter (el_classList_remove "processing") m d)) in
  writes (writes d) = writes d.
Proof.
  intros writes. subst writes. apply map_eq. intros i.
  rewrite !lookup_alter.
  repeat case_decide; subst; try done;
    destruct (d !! _) as [e|]; try done; simpl; f_equal;
    unfold el_classList_add, el_set_innerText, el_classList_remove; simpl;
    f_equal; apply response_classes_idemp.
Qed.

(** ** Running script code *)

Lemma exec_bind {A B} (m : M A) (k : A → M B) w :
  exec (m ≫= k) w =
  match m w with
  | (Normal a, w') => exec (k a) w'
  | (Throw _, w') => w'
  end.
Proof. unfold exec, mbind, M_bind. by destruct (m w) as [[a|e] w']. Qed.

Lemma emitted_app {A} (m : M A) w (es : list Effect) :
  trace (exec m w) = (trace w ++ es)%list → emitted m w = es.
Proof. intros H. unfold emitted. rewrite H. apply drop_app_length. Qed.

(** Unfolds the monad and the primitives, leaving the world's fields. *)
Ltac script :=
  unfold completion, exec, emitted, shown, hostReady,
    dispatch, lex_emit, keyboard, click, mousedown, mouseup, fire,
    run_handler, run_callback,
    onStart_timeout, onStart, initChatbot, initConversationManagement, initUi,
    handleLexResponse, displaySpeechInputTranscript, displayProcessingMessage,
    hideUserMessages, startMainExperience, keyDownHandler, talkKeyDownHandler,
    talkKeyUpHandler, acquireMicrophoneAccess, acquireMicrophoneAccess_resume,
    acquireMicrophoneAccess_catch, response_prop,
    TextToSpeechFeature_play, lex_enableMicInput, lex_endVoiceRecording,
    lex_beginVoiceRecording, lex_listenTo, awsConnector_getCredentials,
    awsConnector_getRegion, on_element, getElementById, showUiScreen,
    setTimeout, console_log, alert, effect, try_catch, throw, gets, modify,
    mbind, M_bind, mret, M_ret in *;
  simpl in *.

(** ** Microphone acquisition *)

(** The part of [acquireMicrophoneAccess] that runs at the call never
    throws, whatever the state of the script. *)
Lemma acquireMicrophoneAccess_completes w :
  completion acquireMicrophoneAccess w = Normal tt.
Proof. script. by destruct (lex w). Qed.

(** Without a voice feature the call itself fails, and the [catch] block
    files the [TypeError] under the other reasons. *)
Lemma acquireMicrophoneAccess_no_lex w :
  lex w = None → shown "micDisabledScreen" (exec acquireMicrophoneAccess w).
Proof.
  intros H. script. rewrite H. simpl. split; [done|]. apply last_snoc.
Qed.

(** C2. An invocation of [acquireMicrophoneAccess] issues one
    [enableMicInput] request and, when that request settles (in whatever
    state the session is by then), shows [startScreen] if it succeeded,
    [micPermissionDismissedScreen] if it failed with the message
    [Permission dismissed], and [micDisabledScreen] if it failed with any
    other message; neither part of the method throws. *)
Theorem acquireMicrophoneAccess_screens (w : World) (l : LexFeature) :
  lex w = Some l →
  completion acquireMicrophoneAccess w = Normal tt
  ∧ emitted acquireMicrophoneAccess w = [ShowUiScreen "micInitScreen"; EnableMicInput]
  ∧ ∀ w' : World,
      let settled r := exec (acquireMicrophoneAccess_resume r) w' in
      (∀ r, completion (acquireMicrophoneAccess_resume r) w' = Normal tt)
      ∧ shown "startScreen" (settled MicResolved)
      ∧ (∀ e, Error.message e = "Permission dismissed" →
              shown "micPermissionDismissedScreen" (settled (MicRejected e)))
      ∧ (∀ e, Error.message e ≠ "Permission dismissed" →
              shown "micDisabledScreen" (settled (MicRejected e))).
Proof.
  intros Hlex.
  split; [apply acquireMicrophoneAccess_completes|].
  split.
  { apply emitted_app. script. rewrite Hlex. simpl.
    by rewrite <- !app_assoc. }
  intros w' settled. subst settled. script.
  split; [|split; [|split]].
  - intros [|e]; simpl; [done|]. by case_bool_decide.
  - split; [done|]. apply last_snoc.
  - intros e He. rewrite bool_decide_eq_true_2 by done. simpl.
    split; [done|]. apply last_snoc.
  - intros e He. rewrite bool_decide_eq_false_2 by done. simpl.
    split; [done|]. apply last_snoc.
Qed.

Lemma acquireMicrophoneAccess_screens_witness :
  lex started = Some (MkLex "BookTrip" "Dev" registered)
  ∧ shown "micPermissionDismissedScreen"
      (exec (acquireMicrophoneAccess_resume
               (MicRejected (Error.Make "Permission dismissed")))
            (exec acquireMicrophoneAccess started)).
Proof.
  split; [vm_compute; reflexivity|].
  pose proof (acquireMicrophoneAccess_screens started
                (MkLex "BookTrip" "Dev" registered)) as H.
  destruct H as (_ & _ & H); [vm_compute; reflexivity|].
  destruct (H (exec acquireMicrophoneAccess started)) as (_ & _ & Hdis & _).
  apply Hdis. reflexivity.
Defined.

(** ** Chatbot responses *)

(** The world [handleLexResponse] produces when nothing it needs is
    missing. *)
Lemma handleLexResponse_run (w : World) (m t : ElRef) (r : Response.t) :
  messageContainerEl w = Some m →
  transcriptTextEl w = Some t →
  hostReady w →
  handleLexResponse (Some r) w =
    (Normal tt,
     log_effect (Play (Response.message r))
       (set_document
          (λ d, alter (el_classList_add "showingMessage") m
                  (alter (el_set_innerText (quoted (Response.inputTranscript r))) t
                     (alter (el_classList_remove "processing") m d)))
          (log_effect (ConsoleLog (LogResponse (Some r))) w))).
Proof.
  intros Hm Ht Hhost. script.
  repeat (first [rewrite Hm | rewrite Ht | rewrite Hhost]; simpl).
  reflexivity.
Qed.



(** C9. Handling the same response twice in succession leaves the DOM (the
    class list of the message container, the transcript text, and every other
    element) as handling it once leaves it. *)
Theorem handleLexResponse_idempotent (w : World) (r : option Response.t) :
  let once := exec (handleLexResponse r) w in
  let twice := exec (handleLexResponse r) once in
  document twice = document once.
Proof.
  script.
  destruct (messageContainerEl w) as [m|] eqn:Hm; simpl; [|by rewrite Hm].
  rewrite ?Hm. simpl.
  destruct r as [r|]; simpl.
  2:{ rewrite Hm. simpl. apply alter_idemp. intros e.
      unfold el_classList_remove. simpl. by rewrite classList_remove_idemp. }
  destruct (transcriptTextEl w) as [t|] eqn:Ht; simpl.
  2:{ rewrite Hm. simpl. rewrite Ht. simpl. apply alter_idemp. intros e.
      unfold el_classList_remove. simpl. by rewrite classList_remove_idemp. }
  rewrite Hm. simpl.
  destruct (hostNode w) as [[[[]|]]|] eqn:Hh; simpl;
    repeat (first [rewrite Hm | rewrite Ht | rewrite Hh]; simpl);
    apply response_dom_idemp.
Qed.

(** ** Preservation *)

Section Stable.
Context (P : World → Prop).

Lemma stable_mret {A} (a : A) : stable P (mret a).
Proof. by intros w. Qed.

Lemma stable_throw {A} (e : Error.t) : stable P (@throw A e).
Proof. by intros w. Qed.

Lemma stable_gets {A} (f : World → A) : stable P (gets f).
Proof. by intros w. Qed.

Lemma stable_modify (f : World → World) :
  (∀ w, P w → P (f w)) → stable P (modify f).
Proof. intros Hf w. apply Hf. Qed.

Lemma stable_bind {A B} (m : M A) (k : A → M B) :
  stable P m → (∀ a, stable P (k a)) → stable P (m ≫= k).
Proof.
  intros Hm Hk w HP. rewrite exec_bind.
  specialize (Hm w HP). unfold exec in Hm.
  destruct (m w) as [[a|e] w']; simpl in *; [by apply Hk|done].
Qed.

(** A reference obtained from [getElementById id] is [id] or [null]. *)
Lemma stable_getElementById {B} (id : string) (k : option ElRef → M B) :
  (∀ r, r = Some id ∨ r = None → stable P (k r)) →
  stable P (getElementById id ≫= k).
Proof.
  intros Hk w HP. rewrite exec_bind. unfold getElementById, gets.
  apply Hk; [|done]. unfold ref_of. destruct (document w !! id); auto.
Qed.

Lemma stable_try_catch {A} (m : M A) (h : Error.t → M A) :
  stable P m → (∀ e, stable P (h e)) → stable P (try_catch m h).
Proof.
  intros Hm Hh w HP. specialize (Hm w HP). unfold exec, try_catch in *.
  destruct (m w) as [[a|e] w']; simpl in *; [done|by apply Hh].
Qed.

Lemma stable_run_callbacks cbs payload :
  (∀ cb, stable P (run_callback cb payload)) →
  stable P (run_callbacks cbs payload).
Proof.
  intros Hcb. induction cbs as [|cb cbs IH]; simpl.
  - apply stable_mret.
  - apply stable_bind; [apply Hcb|intros _; apply IH].
Qed.

Lemma stable_run evs :
  (∀ ev, stable P (dispatch ev)) → ∀ w, P w → P (run evs w).
Proof.
  intros Hstep. unfold run.
  induction evs as [|ev evs IH]; simpl; [done|].
  intros w HP. apply IH. by apply Hstep.
Qed.
End Stable.

(** Walks through script code down to its writes to the world, which [leaf]
    has to show harmless. *)
Ltac walk leaf :=
  repeat match goal with
  | |- stable _ (mret _) => apply stable_mret
  | |- stable _ (throw _) => apply stable_throw
  | |- stable _ (gets _) => apply stable_gets
  | |- stable _ (modify _) => apply stable_modify; leaf
  | |- stable _ (run_callbacks _ _) => apply stable_run_callbacks; intros []
  | |- stable _ (getElementById _ ≫= _) =>
      apply stable_getElementById; intros ? [->| ->]
  | |- stable _ (try_catch _ _) => apply stable_try_catch; [|intros ?]
  | |- stable _ (_ ≫= _) => apply stable_bind; [|intros ?]
  | |- stable _ (if bool_decide _ then _ else _) => case_bool_decide
  | |- stable _ (match ?x with _ => _ end) => destruct x
  | |- stable _ (let _ := _ in _) => cbv zeta
  | |- stable _ _ =>
      progress unfold onStart_timeout, onStart, initChatbot,
        initConversationManagement, initUi, handleLexResponse,
        displaySpeechInputTranscript, displayProcessingMessage,
        hideUserMessages, startMainExperience, keyDownHandler,
        talkKeyDownHandler, talkKeyUpHandler, acquireMicrophoneAccess,
        acquireMicrophoneAccess_resume, acquireMicrophoneAccess_catch,
        response_prop, TextToSpeechFeature_play, lex_enableMicInput,
        lex_endVoiceRecording, lex_beginVoiceRecording, lex_listenTo,
        awsConnector_getCredentials, awsConnector_getRegion, on_element,
        showUiScreen, setTimeout, console_log, alert, effect,
        run_handler, run_callback, click, mousedown, mouseup, fire, keyboard,
        dispatch, lex_emit
  end.

Lemma ref_of_alter (f : HTMLElement → HTMLElement) (i id : string)
    (d : gmap string HTMLElement) :
  ref_of (alter f i d) id = ref_of d id.
Proof.
  unfold ref_of. rewrite lookup_alter.
  case_decide; subst; by destruct (d !! id).
Qed.

Ltac leaf_scene :=
  intros ? (?&?&?&?); repeat split; simpl; try done;
  intros; rewrite ?ref_of_alter; auto.

(** No event rewrites the location or the scene nodes, or adds or removes a
    page element. *)
Lemma dispatch_same_scene w0 ev : stable (same_scene w0) (dispatch ev).
Proof.
  destruct ev; walk leaf_scene.
Qed.

Ltac leaf_handlers :=
  let w := fresh "w" in
  let HP := fresh "HP" in
  let Hl := fresh "Hl" in
  let Hx := fresh "Hx" in
  let Hc := fresh "Hc" in
  let Hd := fresh "Hd" in
  let Hu := fresh "Hu" in
  intros w HP; first
    [ exact HP
    | unfold handlers_in_place; intros ? ? Hl; simpl in Hl;
      apply lookup_alter_Some in Hl;
      destruct Hl as [[<- (? & Hx & ->)]|[_ Hx]]; [|by apply (HP _ _ Hx)];
      destruct (HP _ _ Hx) as (Hc & Hd & Hu); simpl;
      (split; [|split]); intros ? ?; simplify_eq; auto ].

Ltac leaf_same :=
  let w := fresh "w" in
  let HP := fresh "HP" in
  intros w HP; exact HP.

(** A handler of the script never appears in a slot other than its own. *)
Lemma dispatch_handlers_in_place ev : stable handlers_in_place (dispatch ev).
Proof. destruct ev; walk leaf_handlers. Qed.

Lemma fresh_handlers_in_place w : fresh w → handlers_in_place w.
Proof.
  intros [_ H] id e Hl. destruct (H _ _ Hl) as (-> & -> & ->).
  by repeat split.
Qed.

(** Outside the [onStart] timeout, nothing touches the voice feature's
    listeners or the two element references. *)
Lemma dispatch_same_wiring w0 ev :
  ev ≠ TimerFires → stable (same_wiring w0) (dispatch ev).
Proof.
  intros Hev. destruct ev; try done;
    walk leaf_same.
Qed.

Lemma initUi_same_wiring w0 : stable (same_wiring w0) initUi.
Proof. walk leaf_same. Qed.

Lemma acquireMicrophoneAccess_same_wiring w0 :
  stable (same_wiring w0) acquireMicrophoneAccess.
Proof. walk leaf_same. Qed.

Lemma initUi_same_scene w0 : stable (same_scene w0) initUi.
Proof.
  walk leaf_scene.
Qed.

Lemma acquireMicrophoneAccess_same_scene w0 :
  stable (same_scene w0) acquireMicrophoneAccess.
Proof.
  walk leaf_scene.
Qed.

Lemma ref_of_None (d : gmap string HTMLElement) id :
  ref_of d id = None ↔ d !! id = None.
Proof. unfold ref_of. by destruct (d !! id). Qed.


Lemma wired_frame w w' :
  wired w → same_wiring w w' → same_scene w w' → wired w'.
Proof.
  intros Hw (Hl & Hm & Ht) (_ & _ & _ & Hr) l Hlex.
  rewrite Hl in Hlex. destruct (Hw l Hlex) as [[? Hnone]|(? & ? & ?)].
  - left. split; [done|]. apply ref_of_None. rewrite Hr. by apply ref_of_None.
  - right. rewrite Hm, Ht, !Hr. done.
Qed.

Lemma same_wiring_refl w : same_wiring w w.
Proof. by repeat split. Qed.

Lemma same_scene_refl w : same_scene w w.
Proof. by repeat split. Qed.

(** [initChatbot] either stops before it creates the voice feature, stops in
    [initConversationManagement] at a missing talk button, or runs to its
    end. *)
Lemma initChatbot_wired : stable wired initChatbot.
Proof.
  intros w Hw. script.
  destruct (awsConnector w) as [c|] eqn:Hc; simpl; [|done].
  rewrite Hc. simpl.
  destruct (ref_of (document w) "talkButton") as [tb|] eqn:Htb; simpl.
  - intros l [= <-]. right. simpl. by rewrite !ref_of_alter.
  - intros l [= <-]. left. simpl. split; [done|]. by apply ref_of_None.
Qed.

Lemma dispatch_wired ev : stable wired (dispatch ev).
Proof.
  assert (ev ≠ TimerFires → stable wired (dispatch ev)) as Hother.
  { intros Hev w Hw. eapply wired_frame; [exact Hw| |].
    - by apply dispatch_same_wiring, same_wiring_refl.
    - apply dispatch_same_scene, same_scene_refl. }
  destruct ev; try (by apply Hother). clear Hother.
  intros w Hw. unfold dispatch. rewrite exec_bind. unfold gets.
  destruct (timers w) as [|n]; [done|].
  rewrite exec_bind. unfold modify.
  assert (wired (set_timers n w)) as Hw1 by exact Hw.
  revert Hw1. generalize (set_timers n w). clear w Hw. intros w Hw.
  unfold onStart_timeout. rewrite exec_bind.
  pose proof (initChatbot_wired w Hw) as H1. unfold exec in H1.
  destruct (initChatbot w) as [[[]|e] w1]; simpl in *; [|done].
  rewrite exec_bind.
  pose proof (initUi_same_wiring w1 w1 (same_wiring_refl w1)) as H2.
  pose proof (initUi_same_scene w1 w1 (same_scene_refl w1)) as H3.
  unfold exec in H2, H3.
  destruct (initUi w1) as [[[]|e] w2]; simpl in *;
    [|by eapply wired_frame].
  assert (wired w2) as Hw2 by (by eapply wired_frame).
  eapply wired_frame; [exact Hw2| |].
  - apply acquireMicrophoneAccess_same_wiring, same_wiring_refl.
  - apply acquireMicrophoneAccess_same_scene, same_scene_refl.
Qed.

Lemma fresh_wired w : fresh w → wired w.
Proof. intros [Hl _] l. by rewrite Hl. Qed.

(** Every state of a session that starts from a fresh scene. *)
Lemma run_wired evs w : fresh w → wired (run evs w).
Proof.
  intros Hf. apply stable_run; [apply dispatch_wired|by apply fresh_wired].
Qed.

Lemma run_handlers_in_place evs w : fresh w → handlers_in_place (run evs w).
Proof.
  intros Hf. apply stable_run; [apply dispatch_handlers_in_place|].
  by apply fresh_handlers_in_place.
Qed.

Lemma run_same_scene evs w : same_scene w (run evs w).
Proof.
  apply stable_run; [apply dispatch_same_scene|apply same_scene_refl].
Qed.

(** ** Events of the voice feature *)

Lemma newScene_fresh h : fresh (newScene h).
Proof.
  split; [reflexivity|]. intros id e He. simpl in He. unfold demoPage in He.
  apply elem_of_list_to_map_2 in He.
  repeat (apply elem_of_cons in He as [He|He]; [by simplify_eq|]).
  by apply elem_of_nil in He.
Qed.

(** In a session that starts from a fresh scene, a voice feature with a
    record listener has all four listeners and both element references. *)
Lemma run_registered (w0 : World) (evs : list Event) (l : LexFeature) :
  fresh w0 →
  lex (run evs w0) = Some l →
  (recordBegin, CallHideUserMessages) ∈ listeners l
  ∨ (recordEnd, CallDisplayProcessingMessage) ∈ listeners l →
  listeners l = registered
  ∧ messageContainerEl (run evs w0) = ref_of (document w0) "userMessageContainer"
  ∧ transcriptTextEl (run evs w0) = ref_of (document w0) "transcriptText"
  ∧ hostNode (run evs w0) = hostNode w0.
Proof.
  intros Hf Hl Hin.
  destruct (run_same_scene evs w0) as (_ & Hhost & _ & Href).
  destruct (run_wired evs w0 Hf l Hl) as [[Hone _]|(Hreg & Hm & Ht)].
  - rewrite Hone in Hin. exfalso.
    destruct Hin as [Hin|Hin]; apply list_elem_of_singleton in Hin; done.
  - by rewrite Hm, Ht, !Href.
Qed.

Lemma ref_of_is_Some (d : gmap string HTMLElement) id :
  is_Some (d !! id) → ref_of d id = Some id.
Proof. intros [e He]. unfold ref_of. by rewrite He. Qed.

(** C6. In a session that starts from a fresh scene whose page has the
    message container, whenever the voice feature has a record listener
    registered (so that it may deliver record-begin or record-end), both
    handlers, called directly or through the feature's dispatch, run to
    completion in one step, return the unit value and do not throw. *)
Theorem record_handlers_never_throw (w0 : World) (evs : list Event)
    (l : LexFeature) :
  fresh w0 →
  is_Some (document w0 !! "userMessageContainer") →
  let w := run evs w0 in
  lex w = Some l →
  (recordBegin, CallHideUserMessages) ∈ listeners l
  ∨ (recordEnd, CallDisplayProcessingMessage) ∈ listeners l →
  completion hideUserMessages w = Normal tt
  ∧ completion displayProcessingMessage w = Normal tt
  ∧ completion (dispatch (LexEmits RecordBegin)) w = Normal tt
  ∧ completion (dispatch (LexEmits RecordEnd)) w = Normal tt.
Proof.
  intros Hf Hpage w Hl Hin. subst w.
  destruct (run_registered w0 evs l Hf Hl Hin) as (Hreg & Hm & _ & _).
  rewrite (ref_of_is_Some _ _ Hpage) in Hm.
  script. rewrite Hl, Hreg. simpl. script. rewrite Hm. done.
Qed.

Lemma record_handlers_never_throw_witness :
  completion (dispatch (LexEmits RecordBegin))
    (run [SceneStarts; LexEmits RecordEnd; TimerFires;
          LexEmits (ResponseReady (Response.Make "hello" "hi"));
          LexEmits RecordEnd] standalone) = Normal tt.
Proof.
  pose proof (record_handlers_never_throw standalone
            [SceneStarts; LexEmits RecordEnd; TimerFires;
             LexEmits (ResponseReady (Response.Make "hello" "hi"));
             LexEmits RecordEnd]
            (MkLex "BookTrip" "Dev" registered)) as H.
  destruct H as (_ & _ & H & _).
  - apply newScene_fresh.
  - vm_compute. eauto.
  - vm_compute. reflexivity.
  - left. simpl. unfold registered. do 3 constructor.
  - exact H.
Defined.

(** C5. Record-begin followed by record-end: the first event removes
    [showingMessage] from the message container (afterwards the class is
    absent and every other class is as before), the second then adds
    [processing] (afterwards [processing] is present, [showingMessage] still
    absent, every other class as before), and neither changes the text of
    any element or calls a collaborator. *)
Theorem record_begin_then_end (w0 : World) (evs : list Event)
    (l : LexFeature) (mc : HTMLElement) :
  fresh w0 →
  let w := run evs w0 in
  lex w = Some l →
  (recordBegin, CallHideUserMessages) ∈ listeners l
  ∨ (recordEnd, CallDisplayProcessingMessage) ∈ listeners l →
  document w !! "userMessageContainer" = Some mc →
  let w1 := step w (LexEmits RecordBegin) in
  let w2 := step w1 (LexEmits RecordEnd) in
  classList <$> (document w1 !! "userMessageContainer") =
    Some (classList_remove "showingMessage" (classList mc))
  ∧ classList <$> (document w2 !! "userMessageContainer") =
      Some (classList_add "processing"
              (classList_remove "showingMessage" (classList mc)))
  ∧ (∀ id, innerText <$> (document w1 !! id) = innerText <$> (document w !! id))
  ∧ (∀ id, innerText <$> (document w2 !! id) = innerText <$> (document w !! id))
  ∧ trace w2 = trace w
  ∧ (∃ c1, classList <$> (document w1 !! "userMessageContainer") = Some c1
       ∧ ("showingMessage" ∉ c1)
       ∧ ∀ tok, tok ≠ "showingMessage" → (tok ∈ c1 ↔ tok ∈ classList mc))
  ∧ (∃ c2, classList <$> (document w2 !! "userMessageContainer") = Some c2
       ∧ ("processing" ∈ c2)
       ∧ ("showingMessage" ∉ c2)
       ∧ ∀ tok, tok ≠ "processing" → tok ≠ "showingMessage" →
                (tok ∈ c2 ↔ tok ∈ classList mc)).
Proof.
  intros Hf w Hl Hin Hmc w1 w2.
  destruct (run_registered w0 evs l Hf Hl Hin) as (Hreg & Hm & _ & _).
  assert (is_Some (document w0 !! "userMessageContainer")) as Hpage.
  { destruct (run_same_scene evs w0) as (_ & _ & _ & Href).
    specialize (Href "userMessageContainer"). fold w in Href.
    unfold ref_of in Href. rewrite Hmc in Href.
    by destruct (document w0 !! "userMessageContainer"). }
  rewrite (ref_of_is_Some _ _ Hpage) in Hm. fold w in Hm.
  assert (w1 = set_document
                 (alter (el_classList_remove "showingMessage")
                        "userMessageContainer") w) as Hw1.
  { subst w1. unfold step. script. rewrite Hl, Hreg. simpl. script.
    by rewrite Hm. }
  assert (w2 = set_document
                 (alter (el_classList_add "processing")
                        "userMessageContainer") w1) as Hw2.
  { subst w2. unfold step. script. rewrite Hw1. simpl. rewrite Hl, Hreg.
    simpl. script. by rewrite Hm. }
  rewrite Hw2, Hw1. simpl.
  split; [by rewrite lookup_alter_eq, Hmc|].
  split; [by rewrite !lookup_alter_eq, Hmc|].
  split.
  { intros id; rewrite !lookup_alter; repeat case_decide; subst; try done;
      by destruct (document w !! "userMessageContainer"). }
  split.
  { intros id; rewrite !lookup_alter; repeat case_decide; subst; try done;
      by destruct (document w !! "userMessageContainer"). }
  split; [done|]. split.
  - eexists. split; [by rewrite lookup_alter_eq, Hmc|]. simpl.
    split; [apply classList_remove_elem|].
    intros tok Hne. unfold classList_remove. rewrite list_elem_of_filter.
    tauto.
  - eexists. split; [by rewrite !lookup_alter_eq, Hmc|]. simpl.
    split; [apply classList_add_elem|]. split.
    + rewrite classList_add_elem_ne. intros [?|Hin']; [done|].
      by apply classList_remove_elem in Hin'.
    + intros tok Hp Hs. rewrite classList_add_elem_ne.
      unfold classList_remove. rewrite list_elem_of_filter. tauto.
Qed.

Lemma record_begin_then_end_witness :
  let w :=
    run [SceneStarts; TimerFires;
         LexEmits (ResponseReady (Response.Make "book a hotel" "ok"))]
        standalone in
  let w2 := step (step w (LexEmits RecordBegin)) (LexEmits RecordEnd) in
  classList <$> (document w2 !! "userMessageContainer") =
    Some (classList_add "processing"
            (classList_remove "showingMessage" ["showingMessage"]))
  ∧ trace w2 = trace w
  ∧ (∃ c2, classList <$> (document w2 !! "userMessageContainer") = Some c2
       ∧ ("processing" ∈ c2) ∧ ("showingMessage" ∉ c2)).
Proof.
  intros w w2.
  pose proof (record_begin_then_end standalone
    [SceneStarts; TimerFires;
     LexEmits (ResponseReady (Response.Make "book a hotel" "ok"))]
    (MkLex "BookTrip" "Dev" registered)
    (MkElement ["showingMessage"] "" None None None)) as H.
  destruct H as (_ & Hclasses & _ & _ & Htrace & _ & (c2 & Hc2 & Hp & Hs & _)).
  - apply newScene_fresh.
  - vm_compute. reflexivity.
  - left. simpl. unfold registered. do 3 constructor.
  - vm_compute. reflexivity.
  - split; [exact Hclasses|]. split; [exact Htrace|].
    exists c2. split; [exact Hc2|]. split; [exact Hp|exact Hs].
Defined.

(** What [initChatbot] calls when it runs through: the response-ready
    listener is registered by [initChatbot] and again by
    [initConversationManagement]. *)
Lemma initChatbot_emitted (w : World) :
  completion initChatbot w = Normal tt →
  emitted initChatbot w =
    [NewLexRuntime; NewLexFeature "BookTrip" "Dev";
     ListenTo lexResponseReady CallHandleLexResponse;
     ListenTo lexResponseReady CallHandleLexResponse;
     ListenTo recordBegin CallHideUserMessages;
     ListenTo recordEnd CallDisplayProcessingMessage].
Proof.
  intros Hc. apply emitted_app. revert Hc. script.
  destruct (awsConnector w) as [c|] eqn:Hc; simpl; [|done].
  rewrite Hc. simpl.
  destruct (ref_of (document w) "talkButton") as [tb|]; simpl; [|done].
  intros _. by rewrite <- !app_assoc.
Qed.

(** C4. [initChatbot] registers a response-ready listener and so does
    [initConversationManagement]: an initialization that runs through makes
    that registration twice; from then on the voice feature holds
    [handleLexResponse] twice for the event, and every response-ready event
    it emits runs [handleLexResponse] twice, with two speech playbacks of the
    same message. *)
Theorem lexResponseReady_handled_twice (w0 : World) (evs : list Event)
    (l : LexFeature) (r : Response.t) :
  fresh w0 →
  hostReady w0 →
  is_Some (document w0 !! "userMessageContainer") →
  is_Some (document w0 !! "transcriptText") →
  let w := run evs w0 in
  lex w = Some l →
  (recordBegin, CallHideUserMessages) ∈ listeners l
  ∨ (recordEnd, CallDisplayProcessingMessage) ∈ listeners l →
  (∀ w', completion initChatbot w' = Normal tt →
         count_occ Effect_eq_dec (emitted initChatbot w')
           (ListenTo lexResponseReady CallHandleLexResponse) = 2)
  ∧ callbacks_for lexResponseReady (listeners l) =
      [CallHandleLexResponse; CallHandleLexResponse]
  ∧ dispatch (LexEmits (ResponseReady r)) w =
      (handleLexResponse (Some r);; handleLexResponse (Some r)) w
  ∧ completion (dispatch (LexEmits (ResponseReady r))) w = Normal tt
  ∧ emitted (dispatch (LexEmits (ResponseReady r))) w =
      [ConsoleLog (LogResponse (Some r)); Play (Response.message r);
       ConsoleLog (LogResponse (Some r)); Play (Response.message r)].
Proof.
  intros Hf Hhost Hmc Htx w Hl Hin.
  destruct (run_registered w0 evs l Hf Hl Hin) as (Hreg & Hm & Ht & Hh).
  rewrite (ref_of_is_Some _ _ Hmc) in Hm.
  rewrite (ref_of_is_Some _ _ Htx) in Ht.
  fold w in Hm, Ht, Hh. unfold hostReady in Hhost. rewrite Hhost in Hh.
  assert (dispatch (LexEmits (ResponseReady r)) w =
          (handleLexResponse (Some r);; handleLexResponse (Some r)) w) as Heq.
  { unfold dispatch, lex_emit, gets, mbind at 1, M_bind at 1.
    rewrite Hl, Hreg. simpl. unfold mbind, M_bind.
    destruct (handleLexResponse (Some r) w) as [[[]|e] w1]; [|done].
    by destruct (handleLexResponse (Some r) w1) as [[[]|e] w2]. }
  split; [intros w' Hc; by rewrite (initChatbot_emitted w' Hc)|].
  split; [by rewrite Hreg|]. split; [exact Heq|].
  assert ((handleLexResponse (Some r);; handleLexResponse (Some r)) w =
    (Normal tt,
     log_effect (Play (Response.message r))
       (set_document
          (λ d, alter (el_classList_add "showingMessage") "userMessageContainer"
                  (alter (el_set_innerText (quoted (Response.inputTranscript r)))
                     "transcriptText"
                     (alter (el_classList_remove "processing")
                        "userMessageContainer" d)))
          (log_effect (ConsoleLog (LogResponse (Some r)))
     (log_effect (Play (Response.message r))
       (set_document
          (λ d, alter (el_classList_add "showingMessage") "userMessageContainer"
                  (alter (el_set_innerText (quoted (Response.inputTranscript r)))
                     "transcriptText"
                     (alter (el_classList_remove "processing")
                        "userMessageContainer" d)))
          (log_effect (ConsoleLog (LogResponse (Some r))) w))))))) as Hrun.
  { unfold mbind, M_bind.
    rewrite (handleLexResponse_run w _ _ r Hm Ht Hh).
    by rewrite (handleLexResponse_run _ "userMessageContainer"
                  "transcriptText" r). }
  split.
  - unfold completion. by rewrite Heq, Hrun.
  - apply emitted_app. unfold exec. rewrite Heq, Hrun. simpl.
    by rewrite <- !app_assoc.
Qed.

Lemma lexResponseReady_handled_twice_witness :
  emitted (dispatch (LexEmits (ResponseReady (Response.Make "book a hotel" "When?"))))
    started =
    [ConsoleLog (LogResponse (Some (Response.Make "book a hotel" "When?")));
     Play "When?";
     ConsoleLog (LogResponse (Some (Response.Make "book a hotel" "When?")));
     Play "When?"].
Proof.
  pose proof (lexResponseReady_handled_twice standalone
    [SceneStarts; TimerFires] (MkLex "BookTrip" "Dev" registered)
    (Response.Make "book a hotel" "When?")) as H.
  destruct H as (_ & _ & _ & _ & H).
  - apply newScene_fresh.
  - reflexivity.
  - vm_compute. eauto.
  - vm_compute. eauto.
  - vm_compute. reflexivity.
  - left. simpl. unfold registered. do 3 constructor.
  - exact H.
Defined.

(** ** Keyboard shortcuts *)

(** In a standalone runtime whose page has the two buttons, [initUi] installs
    both click handlers. *)
Lemma initUi_binds_click_handlers (w : World) (sb mb : HTMLElement) :
  location_host w ≠ "" →
  document w !! "startButton" = Some sb →
  document w !! "enableMicButton" = Some mb →
  completion initUi w = Normal tt
  ∧ onclick <$> (document (exec initUi w) !! "startButton") =
      Some (Some StartButtonClick)
  ∧ onclick <$> (document (exec initUi w) !! "enableMicButton") =
      Some (Some EnableMicButtonClick).
Proof.
  intros Hh Hs Hm. script. rewrite bool_decide_eq_false_2 by done.
  unfold ref_of. simpl.
  repeat (first [ rewrite lookup_alter_eq | rewrite lookup_alter_ne by done
                | rewrite Hs | rewrite Hm ]; simpl).
  done.
Qed.

(** Where the enable-mic button carries the click handler [initUi]
    installs, pressing [z] and clicking the button do the same thing: each
    is one call of [acquireMicrophoneAccess], which selects the mic-init
    screen once. *)
Lemma shortcut_matches_enableMicButton (w : World) (b : HTMLElement) :
  document w !! "enableMicButton" = Some b →
  onclick b = Some EnableMicButtonClick →
  dispatch (Keyboard "z" KEYDOWN) w = acquireMicrophoneAccess w
  ∧ dispatch (Click "enableMicButton") w = acquireMicrophoneAccess w
  ∧ count_occ Effect_eq_dec (emitted acquireMicrophoneAccess w)
      (ShowUiScreen "micInitScreen") = 1.
Proof.
  intros Hb Hclick. split; [reflexivity|]. split.
  - unfold dispatch, click, fire, gets, mbind, M_bind.
    by rewrite Hb, Hclick.
  - destruct (lex w) as [l|] eqn:Hl.
    + rewrite (emitted_app _ _ [ShowUiScreen "micInitScreen"; EnableMicInput]).
      * reflexivity.
      * script. rewrite Hl. simpl. by rewrite <- !app_assoc.
    + rewrite (emitted_app _ _ [ShowUiScreen "micInitScreen";
                                ShowUiScreen "micDisabledScreen"]).
      * reflexivity.
      * script. rewrite Hl. simpl. by rewrite <- !app_assoc.
Qed.

Lemma shortcut_matches_enableMicButton_witness :
  dispatch (Keyboard "z" KEYDOWN) started = acquireMicrophoneAccess started
  ∧ dispatch (Click "enableMicButton") started = acquireMicrophoneAccess started.
Proof.
  pose proof (shortcut_matches_enableMicButton started
                (MkElement [] "" (Some EnableMicButtonClick) None None)) as H.
  destruct H as (Hkey & Hclick & _).
  - vm_compute. reflexivity.
  - reflexivity.
  - split; [exact Hkey|exact Hclick].
Defined.

(** C8 at a concrete state: after the initialization the space key neither
    starts nor stops a recording, while the talk button does both. *)
Lemma space_key_records_nothing :
  (BeginVoiceRecording ∉ emitted (dispatch (Keyboard " " KEYDOWN)) started)
  ∧ (EndVoiceRecording ∉ emitted (dispatch (Keyboard " " KEYUP)) started)
  ∧ (BeginVoiceRecording ∈ emitted (dispatch (MouseDown "talkButton")) started)
  ∧ (EndVoiceRecording ∈ emitted (dispatch (MouseUp "talkButton")) started).
Proof.
  assert (emitted (dispatch (Keyboard " " KEYDOWN)) started = []) as ->
    by (vm_compute; reflexivity).
  assert (emitted (dispatch (Keyboard " " KEYUP)) started =
          [ConsoleLog (LogString "End listening.")]) as ->
    by (vm_compute; reflexivity).
  assert (emitted (dispatch (MouseDown "talkButton")) started =
          [ConsoleLog (LogString "Begin recording"); BeginVoiceRecording]) as ->
    by (vm_compute; reflexivity).
  assert (emitted (dispatch (MouseUp "talkButton")) started =
          [ConsoleLog (LogString "End recording"); EndVoiceRecording]) as ->
    by (vm_compute; reflexivity).
  split; [by apply not_elem_of_nil|].
  split; [by intros ?%list_elem_of_singleton|].
  split; do 2 constructor.
Qed.

(** The two space-key handlers are placeholders: key-down does nothing at
    all and key-up only logs [End listening.]; neither reaches the voice
    feature.  With its handlers installed and the voice feature present, the
    talk button's mouse-down logs and calls [beginVoiceRecording], its
    mouse-up logs and calls [endVoiceRecording]. *)
Lemma talk_keys_are_placeholders (w : World) :
  dispatch (Keyboard " " KEYDOWN) w = (Normal tt, w)
  ∧ dispatch (Keyboard " " KEYUP) w =
      (Normal tt, log_effect (ConsoleLog (LogString "End listening.")) w)
  ∧ (∀ tb l, document w !! "talkButton" = Some tb → lex w = Some l →
       (onmousedown tb = Some TalkButtonMouseDown →
        dispatch (MouseDown "talkButton") w =
          (Normal tt, log_effect BeginVoiceRecording
                        (log_effect (ConsoleLog (LogString "Begin recording")) w)))
       ∧ (onmouseup tb = Some TalkButtonMouseUp →
          dispatch (MouseUp "talkButton") w =
            (Normal tt, log_effect EndVoiceRecording
                          (log_effect (ConsoleLog (LogString "End recording")) w)))).
Proof.
  split; [reflexivity|]. split; [reflexivity|].
  intros tb l Htb Hl. split; intros Hh;
    unfold dispatch, mousedown, mouseup, fire, gets, mbind, M_bind;
    rewrite Htb, Hh; script; by rewrite Hl.
Qed.

Lemma talk_keys_are_placeholders_witness :
  dispatch (Keyboard " " KEYDOWN) started = (Normal tt, started)
  ∧ dispatch (MouseDown "talkButton") started =
      (Normal tt, log_effect BeginVoiceRecording
                    (log_effect (ConsoleLog (LogString "Begin recording")) started)).
Proof.
  pose proof (talk_keys_are_placeholders started) as (Hdown & _ & Hmouse).
  split; [exact Hdown|].
  refine (proj1 (Hmouse
    (MkElement [] "" None (Some TalkButtonMouseDown) (Some TalkButtonMouseUp))
    (MkLex "BookTrip" "Dev" registered) _ _) _);
    [vm_compute; reflexivity | vm_compute; reflexivity | reflexivity].
Defined.

(** ** Starting the main experience *)

Ltac leaf_grew :=
  let w := fresh "w" in
  let es := fresh "es" in
  let Ht := fresh "Ht" in
  let Hn := fresh "Hn" in
  intros w (es & Ht & Hn); first
    [ exists es; split; [exact Ht|exact Hn]
    | eexists (es ++ [_])%list; split;
      [ simpl; rewrite Ht, <- app_assoc; reflexivity
      | rewrite elem_of_app, list_elem_of_singleton;
        intros [?|?]; [done|discriminate] ] ].

Lemma grew_without_refl x w : grew_without x w w.
Proof. exists []. split; [by rewrite app_nil_r|apply not_elem_of_nil]. Qed.

Lemma grew_without_emitted {A} x (m : M A) w :
  grew_without x w (exec m w) → x ∉ emitted m w.
Proof. intros (es & Ht & Hn). by rewrite (emitted_app _ _ _ Ht). Qed.

(** Of the handlers, only the start button's selects the chatbot screen. *)
Lemma run_handler_grew w0 h :
  h ≠ StartButtonClick →
  stable (grew_without (ShowUiScreen "chatbotUiScreen") w0) (run_handler h).
Proof. intros Hh. destruct h; try done; walk leaf_grew. Qed.

Lemma fire_grew w0 slot id :
  (∀ w e, document w !! id = Some e → slot e ≠ Some StartButtonClick) →
  stable (grew_without (ShowUiScreen "chatbotUiScreen") w0) (fire slot id).
Proof.
  intros Hslot w Hw. unfold fire. rewrite exec_bind. unfold gets.
  destruct (document w !! id) as [e|] eqn:He; [|done].
  destruct (slot e) as [h|] eqn:Hh; [|done].
  apply run_handler_grew; [|done]. intros ->. by eapply Hslot.
Qed.

(** No event other than a click on the start button selects the chatbot
    screen. *)
Lemma dispatch_grew w ev :
  handlers_in_place w →
  ev ≠ Click "startButton" →
  grew_without (ShowUiScreen "chatbotUiScreen") w (exec (dispatch ev) w).
Proof.
  intros Hp Hev.
  assert (∀ A (m : M A),
    stable (grew_without (ShowUiScreen "chatbotUiScreen") w) m →
    grew_without (ShowUiScreen "chatbotUiScreen") w (exec m w)) as Hrun.
  { intros A m Hm. apply Hm, grew_without_refl. }
  destruct ev as [| |id|id|id| | |]; try (apply Hrun; walk leaf_grew; fail).
  - unfold dispatch, click, fire. rewrite exec_bind. unfold gets.
    destruct (document w !! id) as [e|] eqn:He; [|apply grew_without_refl].
    destruct (onclick e) as [h|] eqn:Hh; [|apply grew_without_refl].
    destruct (Hp id e He) as (Hc & _ & _).
    destruct (Hc h Hh) as [[-> ->]|[-> ->]]; [done|].
    apply Hrun. walk leaf_grew.
  - unfold dispatch, mousedown, fire. rewrite exec_bind. unfold gets.
    destruct (document w !! id) as [e|] eqn:He; [|apply grew_without_refl].
    destruct (onmousedown e) as [h|] eqn:Hh; [|apply grew_without_refl].
    destruct (Hp id e He) as (_ & Hd & _).
    destruct (Hd h Hh) as [-> ->]. apply Hrun. walk leaf_grew.
  - unfold dispatch, mouseup, fire. rewrite exec_bind. unfold gets.
    destruct (document w !! id) as [e|] eqn:He; [|apply grew_without_refl].
    destruct (onmouseup e) as [h|] eqn:Hh; [|apply grew_without_refl].
    destruct (Hp id e He) as (_ & _ & Hu).
    destruct (Hu h Hh) as [-> ->]. apply Hrun. walk leaf_grew.
Qed.



(** ** The preview panel *)

Ltac leaf_grew_any :=
  let w := fresh "w" in
  let es := fresh "es" in
  let Ht := fresh "Ht" in
  intros w (es & Ht); first
    [ exists es; exact Ht
    | eexists (es ++ [_])%list; simpl; rewrite Ht, <- app_assoc; reflexivity ].

Ltac leaf_click_wiring :=
  let w := fresh "w" in
  let Hh := fresh "Hh" in
  let Ho := fresh "Ho" in
  intros w [Hh Ho]; first
    [ exact (conj Hh Ho)
    | split; [exact Hh|]; intros ?; rewrite <- Ho; simpl;
      rewrite lookup_alter; case_decide; subst; [|done];
      by destruct (document w !! _) ].

Lemma initChatbot_grew w0 : stable (grew w0) initChatbot.
Proof. walk leaf_grew_any. Qed.

Lemma acquireMicrophoneAccess_grew w0 : stable (grew w0) acquireMicrophoneAccess.
Proof. walk leaf_grew_any. Qed.

Lemma initChatbot_click_wiring w0 : stable (preview_click_wiring w0) initChatbot.
Proof. walk leaf_click_wiring. Qed.

Lemma acquireMicrophoneAccess_click_wiring w0 :
  stable (preview_click_wiring w0) acquireMicrophoneAccess.
Proof. walk leaf_click_wiring. Qed.

(** In the preview panel [initUi] raises the notice and returns. *)
Lemma initUi_preview w :
  location_host w = "" →
  initUi w = (Normal tt, log_effect (Alert previewNotice) w).
Proof. intros Hh. script. by rewrite Hh. Qed.

(** C1 at a concrete scene in the preview panel: the [onStart] timeout still
    installs both talk-button handlers and still asks for the microphone. *)
Lemma preview_binds_talk_button_and_requests_mic :
  location_host preview = ""
  ∧ onmousedown <$> (document preview !! "talkButton") = Some None
  ∧ onmouseup <$> (document preview !! "talkButton") = Some None
  ∧ onmousedown <$> (document (exec onStart_timeout preview) !! "talkButton") =
      Some (Some TalkButtonMouseDown)
  ∧ onmouseup <$> (document (exec onStart_timeout preview) !! "talkButton") =
      Some (Some TalkButtonMouseUp)
  ∧ emitted onStart_timeout preview =
      [NewLexRuntime; NewLexFeature "BookTrip" "Dev";
       ListenTo lexResponseReady CallHandleLexResponse;
       ListenTo lexResponseReady CallHandleLexResponse;
       ListenTo recordBegin CallHideUserMessages;
       ListenTo recordEnd CallDisplayProcessingMessage;
       Alert previewNotice;
       ShowUiScreen "micInitScreen"; EnableMicInput].
Proof. repeat split; vm_compute; reflexivity. Qed.

(** C1, as the code has it.  In the preview panel [initUi] presents the notice and
    does nothing else, so the whole [onStart] timeout installs no click
    handler (neither the start nor the enable-mic one), and it presents the
    notice whenever [initChatbot] ran through.  The check sits in [initUi]
    only. *)
Theorem preview_skips_click_wiring (w : World) :
  location_host w = "" →
  initUi w = (Normal tt, log_effect (Alert previewNotice) w)
  ∧ (∀ id, onclick <$> (document (exec onStart_timeout w) !! id) =
           onclick <$> (document w !! id))
  ∧ (completion initChatbot w = Normal tt →
     Alert previewNotice ∈ emitted onStart_timeout w).
Proof.
  intros Hh. split; [by apply initUi_preview|].
  assert (preview_click_wiring w w) as Hw by done.
  pose proof (initChatbot_click_wiring w w Hw) as H1.
  pose proof (initChatbot_grew w w (ex_intro _ [] (eq_sym (app_nil_r _)))) as G1.
  unfold onStart_timeout, completion. rewrite exec_bind.
  unfold emitted at 1. rewrite exec_bind. unfold exec in H1, G1.
  destruct (initChatbot w) as [[[]|e] w1]; simpl in *.
  2:{ split; [apply H1|done]. }
  destruct H1 as [Hh1 Ho1]. destruct G1 as [es1 G1].
  rewrite !exec_bind, (initUi_preview w1 Hh1).
  assert (preview_click_wiring w (log_effect (Alert previewNotice) w1)) as H2
    by done.
  split.
  - apply (acquireMicrophoneAccess_click_wiring w _ H2).
  - intros _.
    destruct (acquireMicrophoneAccess_grew
                (log_effect (Alert previewNotice) w1)
                (log_effect (Alert previewNotice) w1)
                (ex_intro _ [] (eq_sym (app_nil_r _)))) as [es2 G2].
    rewrite G2. simpl. rewrite G1, <- !app_assoc, drop_app_length.
    rewrite !elem_of_app, list_elem_of_singleton. auto.
Qed.

Lemma preview_skips_click_wiring_witness :
  location_host preview = ""
  ∧ initUi preview = (Normal tt, log_effect (Alert previewNotice) preview).
Proof.
  split; [reflexivity|].
  exact (proj1 (preview_skips_click_wiring preview eq_refl)).
Defined.

(** * Further properties of the script *)

(** ** When the initialization runs through *)

Lemma completion_bind {A B} (m : M A) (k : A → M B) w :
  completion (m ≫= k) w =
  match m w with
  | (Normal a, w') => completion (k a) w'
  | (Throw e, _) => Throw e
  end.
Proof. unfold completion, mbind, M_bind. by destruct (m w) as [[a|e] w']. Qed.

Lemma ref_of_is_Some_iff (d : gmap string HTMLElement) id :
  is_Some (ref_of d id) ↔ is_Some (d !! id).
Proof. unfold ref_of. destruct (d !! id); split; intros [? ?]; eauto; done. Qed.

Lemma initChatbot_same_scene w0 : stable (same_scene w0) initChatbot.
Proof. walk leaf_scene. Qed.

Lemma initChatbot_completes_iff w :
  completion initChatbot w = Normal tt ↔
  is_Some (awsConnector w) ∧ is_Some (document w !! "talkButton").
Proof.
  rewrite <- ref_of_is_Some_iff. script.
  destruct (awsConnector w) as [c|] eqn:Hc; simpl.
  - rewrite Hc. simpl.
    destruct (ref_of (document w) "talkButton"); simpl; split;
      try done; eauto. by intros [_ [? ?]].
  - split; [done|]. by intros [[? ?] _].
Qed.

Lemma initUi_completes_iff w :
  completion initUi w = Normal tt ↔
  location_host w = ""
  ∨ (is_Some (document w !! "startButton")
     ∧ is_Some (document w !! "enableMicButton")).
Proof.
  rewrite <- !ref_of_is_Some_iff. script. case_bool_decide as Hh; simpl.
  - split; auto.
  - destruct (ref_of (document w) "startButton") as [sb|] eqn:Hs; simpl.
    + rewrite ref_of_alter.
      destruct (ref_of (document w) "enableMicButton"); simpl; split;
        try done; eauto.
      * intros [?|[_ [? ?]]]; done.
    + split; [done|]. intros [?|[[? ?] _]]; done.
Qed.

(** X1. The [onStart] timeout runs to its end exactly when the scene has an
    AWS connector, the page has the talk button, and either the scene runs
    in the preview panel or the page has both the start and the enable-mic
    button.  A failing microphone request is never what stops it. *)
Theorem onStart_timeout_completes_iff (w : World) :
  completion onStart_timeout w = Normal tt ↔
  is_Some (awsConnector w)
  ∧ is_Some (document w !! "talkButton")
  ∧ (location_host w = ""
     ∨ (is_Some (document w !! "startButton")
        ∧ is_Some (document w !! "enableMicButton"))).
Proof.
  unfold onStart_timeout. rewrite completion_bind.
  pose proof (initChatbot_completes_iff w) as Hc.
  pose proof (initChatbot_same_scene w w (same_scene_refl w)) as Hs.
  unfold completion, exec in Hc, Hs.
  destruct (initChatbot w) as [[[]|e] w1]; simpl in *.
  - destruct Hs as (Hh & _ & _ & Href).
    rewrite completion_bind.
    pose proof (initUi_completes_iff w1) as Hu. unfold completion in Hu.
    destruct (initUi w1) as [[[]|e] w2]; simpl in *.
    + rewrite acquireMicrophoneAccess_completes.
      rewrite Hh, <- !ref_of_is_Some_iff, !Href, !ref_of_is_Some_iff in Hu.
      split; [intros _|done].
      destruct Hc as [[? ?] _]; [done|]. by split; [|split; [|apply Hu]].
    + rewrite Hh, <- !ref_of_is_Some_iff, !Href, !ref_of_is_Some_iff in Hu.
      split; [done|]. intros (_ & _ & H). by apply Hu in H.
  - split; [done|]. intros (? & ? & _). by apply Hc.
Qed.

Lemma onStart_timeout_completes_iff_witness :
  completion onStart_timeout standalone = Normal tt
  ∧ completion onStart_timeout preview = Normal tt.
Proof.
  split; apply onStart_timeout_completes_iff.
  - split; [vm_compute; eauto|]. split; [vm_compute; eauto|].
    right. split; vm_compute; eauto.
  - split; [vm_compute; eauto|]. split; [vm_compute; eauto|]. by left.
Defined.

(** X2. In a standalone runtime, with the AWS connector in the scene and
    the talk, start and enable-mic buttons on the page, the [onStart]
    timeout leaves the script fully set up: the AWS SDK configured from the
    connector, a voice feature for bot [BookTrip], alias [Dev], carrying the
    four listeners, the four button handlers installed and nothing else of
    the page changed, both element references taken, the mic-init screen
    on display and one microphone request pending; no notice is raised. *)
Theorem onStart_timeout_standalone (w : World) (c : IAwsConnector)
    (tb sb mb : HTMLElement) :
  location_host w ≠ "" →
  awsConnector w = Some c →
  document w !! "talkButton" = Some tb →
  document w !! "startButton" = Some sb →
  document w !! "enableMicButton" = Some mb →
  let w' := exec onStart_timeout w in
  completion onStart_timeout w = Normal tt
  ∧ AWS_config_region w' = Some (getRegion c)
  ∧ AWS_config_credentials w' = Some (getCredentials c)
  ∧ lex w' = Some (MkLex "BookTrip" "Dev" registered)
  ∧ document w' =
      alter (el_set_onclick EnableMicButtonClick) "enableMicButton"
        (alter (el_set_onclick StartButtonClick) "startButton"
           (alter (el_set_onmouseup TalkButtonMouseUp) "talkButton"
              (alter (el_set_onmousedown TalkButtonMouseDown) "talkButton"
                 (document w))))
  ∧ messageContainerEl w' = ref_of (document w) "userMessageContainer"
  ∧ transcriptTextEl w' = ref_of (document w) "transcriptText"
  ∧ visibleScreen w' = Some "micInitScreen"
  ∧ micRequests w' = S (micRequests w)
  ∧ emitted onStart_timeout w =
      [NewLexRuntime; NewLexFeature "BookTrip" "Dev";
       ListenTo lexResponseReady CallHandleLexResponse;
       ListenTo lexResponseReady CallHandleLexResponse;
       ListenTo recordBegin CallHideUserMessages;
       ListenTo recordEnd CallDisplayProcessingMessage;
       ShowUiScreen "micInitScreen"; EnableMicInput].
Proof.
  intros Hh Hc Htb Hsb Hmb.
  assert (ref_of (document w) "talkButton" = Some "talkButton") as Rtb
    by (apply ref_of_is_Some; eauto).
  assert (ref_of (document w) "startButton" = Some "startButton") as Rsb
    by (apply ref_of_is_Some; eauto).
  assert (ref_of (document w) "enableMicButton" = Some "enableMicButton") as Rmb
    by (apply ref_of_is_Some; eauto).
  assert (onStart_timeout w =
    (Normal tt,
     set_micRequests (S (micRequests w))
       (log_effect EnableMicInput
       (set_visibleScreen (Some "micInitScreen")
       (log_effect (ShowUiScreen "micInitScreen")
       (set_document
          (alter (el_set_onclick EnableMicButtonClick) "enableMicButton")
       (set_document (alter (el_set_onclick StartButtonClick) "startButton")
       (set_transcriptTextEl (ref_of (document w) "transcriptText")
       (set_messageContainerEl (ref_of (document w) "userMessageContainer")
       (set_lex (Some (MkLex "BookTrip" "Dev" registered))
       (log_effect (ListenTo recordEnd CallDisplayProcessingMessage)
       (log_effect (ListenTo recordBegin CallHideUserMessages)
       (log_effect (ListenTo lexResponseReady CallHandleLexResponse)
       (set_document (alter (el_set_onmouseup TalkButtonMouseUp) "talkButton")
       (set_document
          (alter (el_set_onmousedown TalkButtonMouseDown) "talkButton")
       (log_effect (ListenTo lexResponseReady CallHandleLexResponse)
       (log_effect (NewLexFeature "BookTrip" "Dev")
       (log_effect NewLexRuntime
       (set_AWS_config_credentials (Some (getCredentials c))
       (set_AWS_config_region (Some (getRegion c)) w)))))))))))))))))))) as Hrun.
  { script.
    repeat (first [ rewrite Hc | rewrite Rtb | rewrite Rsb | rewrite Rmb
                  | rewrite ref_of_alter
                  | rewrite bool_decide_eq_false_2 by done ]; simpl).
    reflexivity. }
  intros w'. subst w'. unfold completion, exec. split; [by rewrite Hrun|].
  repeat (split; [by rewrite Hrun|]).
  apply emitted_app. unfold exec. rewrite Hrun. simpl.
  by rewrite <- !app_assoc.
Qed.

Lemma onStart_timeout_standalone_witness :
  lex (exec onStart_timeout standalone) = Some (MkLex "BookTrip" "Dev" registered)
  ∧ micRequests (exec onStart_timeout standalone) = S (micRequests standalone).
Proof.
  pose proof (onStart_timeout_standalone standalone
                (MkConnector "us-west-2" "credentials") blank blank blank) as H.
  destruct H as (_ & _ & _ & Hlex & _ & _ & _ & _ & Hmic & _);
    [done | reflexivity | vm_compute; reflexivity | vm_compute; reflexivity
    | vm_compute; reflexivity |].
  split; [exact Hlex|exact Hmic].
Defined.

(** X3. Without an AWS connector in the scene the [onStart] timeout stops
    at its first statement: it throws and leaves everything as it was, with
    no voice feature, no handler, no notice and no microphone request. *)
Theorem onStart_timeout_no_connector (w : World) :
  awsConnector w = None →
  ∃ e, onStart_timeout w = (Throw e, w).
Proof. intros Hc. eexists. script. rewrite Hc. reflexivity. Qed.

Lemma onStart_timeout_no_connector_witness :
  let w := MkWorld "localhost:1338" demoPage None None None None
             (Some (MkSumerianHost (Some HostWithTextToSpeech)))
             None None None 0 0 [] in
  ∃ e, onStart_timeout w = (Throw e, w).
Proof. intros w. apply (onStart_timeout_no_connector w). reflexivity. Defined.

(** X4. With a connector but no talk button on the page,
    [initConversationManagement] throws at its first assignment, which ends
    the whole [onStart] timeout: the voice feature exists with the single
    response-ready listener of [initChatbot], the page and both element
    references are untouched, and neither [initUi] nor
    [acquireMicrophoneAccess] runs (no notice, no screen, no microphone
    request). *)
Theorem onStart_timeout_no_talkButton (w : World) (c : IAwsConnector) :
  awsConnector w = Some c →
  document w !! "talkButton" = None →
  let w' := exec onStart_timeout w in
  (∃ e, completion onStart_timeout w = Throw e)
  ∧ lex w' = Some (MkLex "BookTrip" "Dev"
                     [(lexResponseReady, CallHandleLexResponse)])
  ∧ document w' = document w
  ∧ messageContainerEl w' = messageContainerEl w
  ∧ transcriptTextEl w' = transcriptTextEl w
  ∧ visibleScreen w' = visibleScreen w
  ∧ micRequests w' = micRequests w
  ∧ emitted onStart_timeout w =
      [NewLexRuntime; NewLexFeature "BookTrip" "Dev";
       ListenTo lexResponseReady CallHandleLexResponse].
Proof.
  intros Hc Htb.
  assert (ref_of (document w) "talkButton" = None) as Rtb
    by (by apply ref_of_None).
  assert (∃ e, onStart_timeout w =
    (Throw e,
     set_lex (Some (MkLex "BookTrip" "Dev"
                      [(lexResponseReady, CallHandleLexResponse)]))
       (log_effect (ListenTo lexResponseReady CallHandleLexResponse)
       (set_lex (Some (MkLex "BookTrip" "Dev" []))
       (log_effect (NewLexFeature "BookTrip" "Dev")
       (log_effect NewLexRuntime
       (set_AWS_config_credentials (Some (getCredentials c))
       (set_AWS_config_region (Some (getRegion c)) w)))))))) as [e Hrun].
  { eexists. script. repeat (first [rewrite Hc | rewrite Rtb]; simpl).
    reflexivity. }
  intros w'. subst w'. unfold completion, exec.
  split; [exists e; by rewrite Hrun|].
  repeat (split; [by rewrite Hrun|]).
  apply emitted_app. unfold exec. rewrite Hrun. simpl.
  by rewrite <- !app_assoc.
Qed.

Lemma onStart_timeout_no_talkButton_witness :
  let w := MkWorld "localhost:1338" (delete "talkButton" demoPage)
             None None None (Some (MkConnector "us-west-2" "credentials"))
             (Some (MkSumerianHost (Some HostWithTextToSpeech)))
             None None None 0 0 [] in
  micRequests (exec onStart_timeout w) = micRequests w
  ∧ emitted onStart_timeout w =
      [NewLexRuntime; NewLexFeature "BookTrip" "Dev";
       ListenTo lexResponseReady CallHandleLexResponse].
Proof.
  intros w.
  pose proof (onStart_timeout_no_talkButton w
                (MkConnector "us-west-2" "credentials")) as H.
  destruct H as (_ & _ & _ & _ & _ & _ & Hmic & Hem);
    [reflexivity | vm_compute; reflexivity |].
  split; [exact Hmic|exact Hem].
Defined.

(** X5. In a standalone runtime [initUi] throws when a button is missing:
    without the start button nothing is installed; with the start button
    but without the enable-mic button the start handler is installed and
    then the method throws.  No notice is raised either way. *)
Theorem initUi_missing_button (w : World) :
  location_host w ≠ "" →
  (document w !! "startButton" = None → ∃ e, initUi w = (Throw e, w))
  ∧ (is_Some (document w !! "startButton") →
     document w !! "enableMicButton" = None →
     ∃ e, initUi w =
            (Throw e,
             set_document (alter (el_set_onclick StartButtonClick) "startButton") w)).
Proof.
  intros Hh. split.
  - intros Hs. apply ref_of_None in Hs. eexists. script.
    rewrite bool_decide_eq_false_2 by done. rewrite Hs. reflexivity.
  - intros Hs Hm. apply ref_of_is_Some in Hs. apply ref_of_None in Hm.
    eexists. script. rewrite bool_decide_eq_false_2 by done.
    rewrite Hs. simpl. rewrite ref_of_alter, Hm. reflexivity.
Qed.

Lemma initUi_missing_button_witness :
  let w := MkWorld "localhost:1338" (delete "enableMicButton" demoPage)
             None None None (Some (MkConnector "us-west-2" "credentials"))
             (Some (MkSumerianHost (Some HostWithTextToSpeech)))
             None None None 0 0 [] in
  ∃ e, initUi w =
         (Throw e,
          set_document (alter (el_set_onclick StartButtonClick) "startButton") w).
Proof.
  intros w.
  refine (proj2 (initUi_missing_button w _) _ _);
    [done | vm_compute; eauto | vm_compute; reflexivity].
Defined.

(** ** Responses that cannot be presented *)

(** X6. [handleLexResponse] speaks the response only when both element
    references are set and the avatar host is there.  If any of the three
    is missing it throws after logging the response and the avatar is never
    asked to speak; the response is logged in every case. *)
Theorem handleLexResponse_speaks_iff (w : World) (r : Response.t) :
  let ready :=
    is_Some (messageContainerEl w) ∧ is_Some (transcriptTextEl w)
    ∧ hostReady w in
  (ready →
   completion (handleLexResponse (Some r)) w = Normal tt
   ∧ emitted (handleLexResponse (Some r)) w =
       [ConsoleLog (LogResponse (Some r)); Play (Response.message r)])
  ∧ (¬ ready →
     (∃ e, completion (handleLexResponse (Some r)) w = Throw e)
     ∧ emitted (handleLexResponse (Some r)) w =
         [ConsoleLog (LogResponse (Some r))]).
Proof.
  intros ready. subst ready. split.
  - intros ([m Hm] & [t Ht] & Hh).
    pose proof (handleLexResponse_run w m t r Hm Ht Hh) as Hrun.
    split; [unfold completion; by rewrite Hrun|].
    apply emitted_app. unfold exec. rewrite Hrun. simpl.
    by rewrite <- app_assoc.
  - intros Hnot.
    assert (∃ e w1, handleLexResponse (Some r) w = (Throw e, w1)
                    ∧ trace w1 = (trace w ++ [ConsoleLog (LogResponse (Some r))])%list)
      as (e & w1 & Hrun & Htr).
    { script.
      destruct (messageContainerEl w) as [m|] eqn:Hm; simpl;
        [|by eexists _, _].
      rewrite ?Hm. simpl.
      destruct (transcriptTextEl w) as [t|] eqn:Ht; simpl;
        [|by eexists _, _].
      rewrite ?Hm. simpl.
      destruct (hostNode w) as [[[[]|]]|] eqn:Hh; simpl;
        try (by eexists _, _).
      destruct Hnot. eauto. }
    split; [exists e; unfold completion; by rewrite Hrun|].
    apply emitted_app. unfold exec. by rewrite Hrun.
Qed.

Lemma handleLexResponse_speaks_iff_witness :
  emitted (handleLexResponse (Some (Response.Make "hello" "hi"))) started =
    [ConsoleLog (LogResponse (Some (Response.Make "hello" "hi"))); Play "hi"]
  ∧ emitted (handleLexResponse (Some (Response.Make "hello" "hi"))) standalone =
      [ConsoleLog (LogResponse (Some (Response.Make "hello" "hi")))].
Proof.
  split.
  - refine (proj2 (proj1 (handleLexResponse_speaks_iff started
                            (Response.Make "hello" "hi")) _)).
    split; [vm_compute; eauto|]. split; [vm_compute; eauto|].
    vm_compute. reflexivity.
  - refine (proj2 (proj2 (handleLexResponse_speaks_iff standalone
                            (Response.Make "hello" "hi")) _)).
    intros [[m Hm] _]. vm_compute in Hm. discriminate.
Defined.

(** X7. The last response wins: after two responses in succession the page
    is exactly what the second response alone would have made it, whatever
    the first one was and whether or not either call ran to its end. *)
Theorem handleLexResponse_last_wins (w : World) (r1 : option Response.t)
    (r2 : Response.t) :
  document (exec (handleLexResponse (Some r2)) (exec (handleLexResponse r1) w)) =
  document (exec (handleLexResponse (Some r2)) w).
Proof.
  assert (∀ (m t : ElRef) (s1 s2 : string) (d : gmap string HTMLElement),
    alter (el_classList_add "showingMessage") m
      (alter (el_set_innerText s2) t
         (alter (el_classList_remove "processing") m
            (alter (el_classList_add "showingMessage") m
               (alter (el_set_innerText s1) t
                  (alter (el_classList_remove "processing") m d))))) =
    alter (el_classList_add "showingMessage") m
      (alter (el_set_innerText s2) t
         (alter (el_classList_remove "processing") m d))) as Hfull.
  { intros m t s1 s2 d. apply map_eq. intros i. rewrite !lookup_alter.
    repeat case_decide; subst; try done;
      destruct (d !! _) as [e|]; try done; simpl; f_equal;
      unfold el_classList_add, el_set_innerText, el_classList_remove; simpl;
      f_equal; apply response_classes_idemp. }
  assert (∀ (m t : ElRef) (s2 : string) (d : gmap string HTMLElement),
    alter (el_classList_add "showingMessage") m
      (alter (el_set_innerText s2) t
         (alter (el_classList_remove "processing") m
            (alter (el_classList_remove "processing") m d))) =
    alter (el_classList_add "showingMessage") m
      (alter (el_set_innerText s2) t
         (alter (el_classList_remove "processing") m d))) as Hpart.
  { intros m t s2 d. rewrite alter_idemp; [done|]. intros e.
    unfold el_classList_remove. simpl. by rewrite classList_remove_idemp. }
  script.
  destruct (messageContainerEl w) as [m|] eqn:Hm; simpl; [|by rewrite Hm].
  rewrite ?Hm. simpl.
  destruct (transcriptTextEl w) as [t|] eqn:Ht; simpl.
  2:{ destruct r1 as [r1|]; simpl;
        repeat (first [rewrite Hm | rewrite Ht]; simpl);
        (apply alter_idemp; intros e; unfold el_classList_remove; simpl;
         by rewrite classList_remove_idemp). }
  rewrite ?Hm. simpl.
  destruct (hostNode w) as [[[[]|]]|] eqn:Hh; destruct r1 as [r1|]; simpl;
    repeat (first [rewrite Hm | rewrite Ht | rewrite Hh]; simpl);
    first [apply Hfull | apply Hpart].
Qed.

(** ** The record handlers *)

(** X8. [hideUserMessages] and [displayProcessingMessage] commute: in
    either order they complete alike and leave the same world, so the order
    in which the voice feature delivers record-begin and record-end does not
    matter for the page. *)
Theorem record_handlers_commute (w : World) :
  (hideUserMessages;; displayProcessingMessage) w =
  (displayProcessingMessage;; hideUserMessages) w.
Proof.
  script. destruct (messageContainerEl w) as [m|] eqn:Hm; simpl; [|done].
  rewrite Hm. simpl. f_equal. unfold set_document. simpl. f_equal.
  rewrite !alter_alter_eq. apply alter_ext. intros e _. simpl.
  unfold el_classList_add, el_classList_remove. simpl. f_equal.
  symmetry. by apply classList_remove_add.
Qed.

(** ** Starting without an avatar host *)

(** X9. When the avatar host is not there yet, [startMainExperience] has
    already selected the chatbot screen by the time it throws: the screen
    changes, but no greeting is spoken. *)
Theorem startMainExperience_without_host (w : World) :
  ¬ hostReady w →
  (∃ e, completion startMainExperience w = Throw e)
  ∧ visibleScreen (exec startMainExperience w) = Some "chatbotUiScreen"
  ∧ emitted startMainExperience w = [ShowUiScreen "chatbotUiScreen"].
Proof.
  intros Hnot.
  assert (∃ e, startMainExperience w =
    (Throw e, set_visibleScreen (Some "chatbotUiScreen")
                (log_effect (ShowUiScreen "chatbotUiScreen") w))) as [e Hrun].
  { script. destruct (hostNode w) as [[[[]|]]|]; simpl; eauto.
    by destruct Hnot. }
  unfold completion, exec. rewrite Hrun. simpl.
  split; [eauto|]. split; [done|].
  apply emitted_app. unfold exec. by rewrite Hrun.
Qed.

Lemma startMainExperience_without_host_witness :
  let w := MkWorld "localhost:1338" demoPage None None None
             (Some (MkConnector "us-west-2" "credentials"))
             (Some (MkSumerianHost None)) None None None 0 0 [] in
  visibleScreen (exec startMainExperience w) = Some "chatbotUiScreen"
  ∧ emitted startMainExperience w = [ShowUiScreen "chatbotUiScreen"].
Proof.
  intros w.
  destruct (startMainExperience_without_host w) as (_ & Hs & He);
    [intros H; vm_compute in H; discriminate|].
  split; [exact Hs|exact He].
Defined.

(** ** What a session never touches *)

Lemma other_tokens_add tok l :
  tok = "processing" ∨ tok = "showingMessage" →
  other_tokens (classList_add tok l) = other_tokens l.
Proof.
  intros Htok. unfold classList_add. case_bool_decide; [done|].
  unfold other_tokens. rewrite filter_app, filter_cons_False, filter_nil.
  - apply app_nil_r.
  - destruct Htok; subst; tauto.
Qed.

Lemma other_tokens_remove tok l :
  tok = "processing" ∨ tok = "showingMessage" →
  other_tokens (classList_remove tok l) = other_tokens l.
Proof.
  intros Htok. unfold other_tokens, classList_remove.
  rewrite list_filter_filter. apply list_filter_iff. intros t.
  destruct Htok; subst; tauto.
Qed.

Ltac leaf_tokens :=
  let w := fresh "w" in
  let HP := fresh "HP" in
  intros w HP; first
    [ exact HP
    | intros ?; rewrite <- HP; simpl; rewrite lookup_alter;
      case_decide; subst; [|done];
      destruct (document w !! _); [|done]; simpl; f_equal;
      first [ done
            | apply other_tokens_add; auto
            | apply other_tokens_remove; auto ] ].

Lemma lex_emit_same_other_tokens w0 m :
  stable (same_other_tokens w0) (dispatch (LexEmits m)).
Proof. walk leaf_tokens. Qed.

(** X10. Of the class tokens on the page the three handlers of the voice
    feature's events touch two only: over any sequence of response-ready,
    record-begin and record-end events every element keeps all its tokens
    other than [processing] and [showingMessage], in their order. *)
Theorem voice_events_keep_other_tokens (w : World) (ms : list LexMessage)
    (id : string) :
  (other_tokens ∘ classList) <$> (document (run (LexEmits <$> ms) w) !! id) =
  (other_tokens ∘ classList) <$> (document w !! id).
Proof.
  revert id. change (same_other_tokens w (run (LexEmits <$> ms) w)).
  assert (∀ w1, same_other_tokens w w1 →
                same_other_tokens w (run (LexEmits <$> ms) w1)) as Hgen;
    [|by apply Hgen].
  induction ms as [|m ms IH]; intros w1 H1; [exact H1|].
  change (run (LexEmits <$> m :: ms) w1)
    with (run (LexEmits <$> ms) (step w1 (LexEmits m))).
  apply IH. by apply lex_emit_same_other_tokens.
Qed.

Ltac leaf_text :=
  let w := fresh "w" in
  let HP := fresh "HP" in
  intros w HP; first
    [ exact HP
    | intros ?; rewrite <- HP; simpl; rewrite lookup_alter;
      case_decide; subst; [|done]; by destruct (document w !! _) ].

(** Called without a response, [handleLexResponse] throws before it
    reaches the transcript. *)
Lemma handleLexResponse_None_text w0 :
  stable (same_text w0) (handleLexResponse None).
Proof.
  intros w HP. script.
  destruct (messageContainerEl w) as [m|]; simpl; [|exact HP].
  intros id. rewrite <- HP. simpl. rewrite lookup_alter.
  case_decide; subst; [|done]. by destruct (document w !! _).
Qed.

(** X11. The text of the page changes on a response-ready event only:
    every other event (timer, clicks, mouse, keys, record-begin, record-end,
    a settling microphone request) leaves the text of every element as it
    was. *)
Theorem text_changes_on_response_only (w : World) (ev : Event) (id : string) :
  (∀ r, ev ≠ LexEmits (ResponseReady r)) →
  innerText <$> (document (step w ev) !! id) = innerText <$> (document w !! id).
Proof.
  intros Hev. revert id. change (same_text w (step w ev)).
  assert (stable (same_text w) (dispatch ev)) as Hst; [|by apply Hst].
  destruct ev as [| | | | | |m|]; try (walk leaf_text; fail).
  destruct m as [r| |]; [by destruct (Hev r)| |];
    unfold dispatch, lex_emit;
    (apply stable_bind; [apply stable_gets|]); intros [l|];
    try apply stable_mret;
    apply stable_run_callbacks; intros []; simpl payload_of;
    first [apply handleLexResponse_None_text | walk leaf_text].
Qed.

Lemma text_changes_on_response_only_witness :
  innerText <$> (document (step started (LexEmits RecordEnd)) !! "transcriptText") =
  innerText <$> (document started !! "transcriptText").
Proof.
  apply (text_changes_on_response_only started (LexEmits RecordEnd)).
  intros r. discriminate.
Defined.

(** X12. No event adds or removes a page element, and none rewrites the
    location, the avatar host node or the AWS connector of the scene. *)
Theorem session_keeps_scene (w : World) (evs : list Event) :
  dom (document (run evs w)) = dom (document w)
  ∧ location_host (run evs w) = location_host w
  ∧ hostNode (run evs w) = hostNode w
  ∧ awsConnector (run evs w) = awsConnector w.
Proof.
  destruct (run_same_scene evs w) as (Hh & Hn & Hc & Href).
  split; [|done]. apply set_eq. intros id.
  rewrite !elem_of_dom, <- !ref_of_is_Some_iff. by rewrite Href.
Qed.

(** ** Input that never throws *)

(** X13. A keyboard event never throws, whatever the key, the event type
    and the state of the script: the [z] handler catches every failure of
    the microphone request, and the space handlers cannot fail. *)
Theorem keyboard_never_throws (w : World) (key : string)
    (type : KeyboardEventTypes) :
  completion (dispatch (Keyboard key type)) w = Normal tt.
Proof.
  unfold dispatch, keyboard. repeat case_bool_decide; try reflexivity.
  apply acquireMicrophoneAccess_completes.
Qed.

Ltac leaf_talk :=
  let w := fresh "w" in
  let HP := fresh "HP" in
  let Hl := fresh "Hl" in
  let Hh := fresh "Hh" in
  let Hx := fresh "Hx" in
  intros w HP; first
    [ exact HP
    | unfold talk_needs_lex; simpl; intros (? & ? & Hl & Hh); apply HP;
      apply lookup_alter_Some in Hl;
      destruct Hl as [[<- (? & Hx & ->)]|[_ Hx]];
      eexists _, _; (split; [exact Hx|exact Hh]) ].

(** [initChatbot] creates the voice feature before
    [initConversationManagement] installs the talk-button handlers. *)
Lemma initChatbot_talk_needs_lex : stable talk_needs_lex initChatbot.
Proof.
  intros w Hw. script.
  destruct (awsConnector w) as [c|] eqn:Hc; simpl; [|exact Hw].
  rewrite Hc. simpl.
  destruct (ref_of (document w) "talkButton"); simpl; intros _; simpl; eauto.
Qed.

Lemma dispatch_talk_needs_lex ev : stable talk_needs_lex (dispatch ev).
Proof.
  destruct ev; try (walk leaf_talk; fail).
  unfold dispatch. apply stable_bind; [apply stable_gets|].
  intros [|n]; [apply stable_mret|].
  apply stable_bind; [apply stable_modify; leaf_talk|]. intros _.
  unfold onStart_timeout.
  apply stable_bind; [apply initChatbot_talk_needs_lex|]. intros _.
  walk leaf_talk.
Qed.

(** X14. In a session that starts from a fresh scene, pressing or
    releasing the mouse on any element never throws: a talk-button handler
    is only ever installed after the voice feature it calls was created,
    and no other element gets a mouse handler. *)
Theorem mouse_never_throws (w0 : World) (evs : list Event) (id : string) :
  fresh w0 →
  completion (dispatch (MouseDown id)) (run evs w0) = Normal tt
  ∧ completion (dispatch (MouseUp id)) (run evs w0) = Normal tt.
Proof.
  intros Hf.
  pose proof (run_handlers_in_place evs w0 Hf) as Hp.
  assert (talk_needs_lex (run evs w0)) as Ht.
  { apply stable_run; [apply dispatch_talk_needs_lex|].
    intros (i & e & Hl & Hh). destruct Hf as [_ Hf].
    destruct (Hf i e Hl) as (_ & Hd & Hu). rewrite Hd, Hu in Hh.
    destruct Hh as [[? ?]|[? ?]]; done. }
  revert Hp Ht. generalize (run evs w0). intros w Hp Ht.
  split; unfold dispatch, mousedown, mouseup, fire, completion, gets,
    mbind at 1, M_bind at 1.
  - destruct (document w !! id) as [e|] eqn:He; [|done].
    destruct (onmousedown e) as [h|] eqn:Hh; [|done].
    destruct (Hp id e He) as (_ & Hd & _). destruct (Hd h Hh) as [-> ->].
    destruct Ht as [l Hl]; [exists "talkButton", e; eauto|].
    script. by rewrite Hl.
  - destruct (document w !! id) as [e|] eqn:He; [|done].
    destruct (onmouseup e) as [h|] eqn:Hh; [|done].
    destruct (Hp id e He) as (_ & _ & Hu). destruct (Hu h Hh) as [-> ->].
    destruct Ht as [l Hl]; [exists "talkButton", e; eauto|].
    script. by rewrite Hl.
Qed.

Lemma mouse_never_throws_witness :
  completion (dispatch (MouseDown "talkButton"))
    (run [SceneStarts; TimerFires] standalone) = Normal tt.
Proof.
  exact (proj1 (mouse_never_throws standalone [SceneStarts; TimerFires]
                  "talkButton" (newScene_fresh _))).
Defined.

(** ** The preview panel, for a whole session *)

Lemma dispatch_click_wiring w0 ev :
  stable (preview_click_wiring w0) (dispatch ev).
Proof.
  destruct ev; try (walk leaf_click_wiring; fail).
  unfold dispatch. apply stable_bind; [apply stable_gets|].
  intros [|n]; [apply stable_mret|].
  apply stable_bind; [apply stable_modify; leaf_click_wiring|]. intros _.
  unfold onStart_timeout.
  apply stable_bind; [apply initChatbot_click_wiring|]. intros _.
  apply stable_bind; [|intros _; apply acquireMicrophoneAccess_click_wiring].
  intros w [Hh Ho]. unfold exec. by rewrite (initUi_preview w Hh).
Qed.

Lemma grew_without_trans x w0 w1 w2 :
  grew_without x w0 w1 → grew_without x w1 w2 → grew_without x w0 w2.
Proof.
  intros (es1 & H1 & N1) (es2 & H2 & N2). exists (es1 ++ es2)%list.
  split; [by rewrite H2, H1, app_assoc|].
  rewrite elem_of_app. tauto.
Qed.

(** X15. In the preview panel the main experience cannot be started: in a
    session that starts from a fresh scene there, no sequence of events
    (clicks on the start button included) ever selects the chatbot
    screen. *)
Theorem preview_never_starts (w0 : World) (evs : list Event) :
  fresh w0 →
  location_host w0 = "" →
  ∃ es : list Effect,
    trace (run evs w0) = (trace w0 ++ es)%list
    ∧ ShowUiScreen "chatbotUiScreen" ∉ es.
Proof.
  intros Hf Hh. change (grew_without (ShowUiScreen "chatbotUiScreen") w0 (run evs w0)).
  assert (∀ w, handlers_in_place w → preview_click_wiring w0 w →
               grew_without (ShowUiScreen "chatbotUiScreen") w (run evs w)) as Hgen.
  { induction evs as [|ev evs IH]; intros w Hp Hc;
      [apply grew_without_refl|].
    change (run (ev :: evs) w) with (run evs (step w ev)).
    apply grew_without_trans with (step w ev).
    - assert (ev = Click "startButton" →
              grew_without (ShowUiScreen "chatbotUiScreen") w (step w ev)) as Hstart.
      { intros ->. unfold step, dispatch, click, fire. rewrite exec_bind.
        unfold gets.
        destruct (document w !! "startButton") as [e|] eqn:He;
          [|apply grew_without_refl].
        destruct Hc as [_ Hc]. specialize (Hc "startButton").
        rewrite He in Hc. destruct Hf as [_ Hf].
        destruct (document w0 !! "startButton") as [e0|] eqn:He0; [|done].
        destruct (Hf _ _ He0) as (Hnone & _ & _).
        simpl in Hc. rewrite Hnone in Hc. injection Hc as ->.
        apply grew_without_refl. }
      destruct ev as [| |id| | | | |];
        try (apply dispatch_grew; [exact Hp|discriminate]).
      destruct (decide (id = "startButton")) as [->|Hid]; [by apply Hstart|].
      apply dispatch_grew; [exact Hp|congruence].
    - apply IH.
      + by apply dispatch_handlers_in_place.
      + by apply dispatch_click_wiring. }
  apply Hgen; [by apply fresh_handlers_in_place|done].
Qed.

Lemma preview_never_starts_witness :
  ∃ es : list Effect,
    trace (run [SceneStarts; TimerFires; Click "startButton"] preview) =
      (trace preview ++ es)%list
    ∧ ShowUiScreen "chatbotUiScreen" ∉ es.
Proof.
  apply (preview_never_starts preview
           [SceneStarts; TimerFires; Click "startButton"]);
    [apply newScene_fresh|reflexivity].
Defined.

(** ** Repeated microphone requests *)

(** X16. Nothing holds a repeated request back: with the voice feature in
    place, [n] presses of the shortcut key issue [n] further
    [enableMicInput] requests, all of them pending. *)
Theorem repeated_shortcut_requests (n : nat) (w : World) (l : LexFeature) :
  lex w = Some l →
  let w' := run (replicate n (Keyboard "z" KEYDOWN)) w in
  micRequests w' = n + micRequests w
  ∧ count_occ Effect_eq_dec (trace w') EnableMicInput =
      n + count_occ Effect_eq_dec (trace w) EnableMicInput
  ∧ lex w' = Some l.
Proof.
  revert w. induction n as [|n IH]; intros w Hl; [done|].
  assert (step w (Keyboard "z" KEYDOWN) =
          set_micRequests (S (micRequests w))
            (log_effect EnableMicInput
               (set_visibleScreen (Some "micInitScreen")
                  (log_effect (ShowUiScreen "micInitScreen") w)))) as Hstep.
  { unfold step. script. by rewrite Hl. }
  change (run (replicate (S n) (Keyboard "z" KEYDOWN)) w)
    with (run (replicate n (Keyboard "z" KEYDOWN)) (step w (Keyboard "z" KEYDOWN))).
  destruct (IH (step w (Keyboard "z" KEYDOWN))) as (Hm & Hc & Hl');
    [by rewrite Hstep|].
  cbv zeta. rewrite Hm, Hc, Hl'. rewrite Hstep. simpl.
  rewrite !count_occ_app. simpl. split; [lia|]. split; [|done].
  destruct (Effect_eq_dec EnableMicInput EnableMicInput); [|done].
  destruct (Effect_eq_dec (ShowUiScreen "micInitScreen") EnableMicInput);
    [done|lia].
Qed.

Lemma repeated_shortcut_requests_witness :
  micRequests (run (replicate 3 (Keyboard "z" KEYDOWN)) started) =
    3 + micRequests started.
Proof.
  pose proof (repeated_shortcut_requests 3 started
                (MkLex "BookTrip" "Dev" registered)) as H.
  destruct H as (H & _); [vm_compute; reflexivity|]. exact H.
Defined.

(** ** Listeners over a session *)

(** X17. In a session that starts from a fresh scene the voice feature,
    once created, carries either the one response-ready listener of an
    initialization that stopped at a missing talk button, or the four of an
    initialization that ran through: record-begin and record-end have at
    most one listener each, and listeners do not pile up. *)
Theorem session_listeners (w0 : World) (evs : list Event) (l : LexFeature) :
  fresh w0 →
  lex (run evs w0) = Some l →
  (callbacks_for lexResponseReady (listeners l) = [CallHandleLexResponse]
   ∧ callbacks_for recordBegin (listeners l) = []
   ∧ callbacks_for recordEnd (listeners l) = []
   ∧ document w0 !! "talkButton" = None)
  ∨ (callbacks_for lexResponseReady (listeners l) =
       [CallHandleLexResponse; CallHandleLexResponse]
     ∧ callbacks_for recordBegin (listeners l) = [CallHideUserMessages]
     ∧ callbacks_for recordEnd (listeners l) = [CallDisplayProcessingMessage]).
Proof.
  intros Hf Hl.
  destruct (run_wired evs w0 Hf l Hl) as [[Hone Htb]|(Hreg & _ & _)].
  - left. rewrite Hone. repeat split.
    destruct (run_same_scene evs w0) as (_ & _ & _ & Href).
    apply ref_of_None. rewrite <- Href. by apply ref_of_None.
  - right. by rewrite Hreg.
Qed.

Lemma session_listeners_witness :
  callbacks_for recordBegin (listeners (MkLex "BookTrip" "Dev" registered)) =
    [CallHideUserMessages].
Proof.
  destruct (session_listeners standalone [SceneStarts; TimerFires]
              (MkLex "BookTrip" "Dev" registered)) as [(_ & _ & _ & H)|(_ & H & _)].
  - apply newScene_fresh.
  - vm_compute. reflexivity.
  - vm_compute in H. discriminate.
  - exact H.
Defined.

(** ** The shortcut key and the enable-mic button, over a session *)










(** ** What starts and stops a recording, over a session *)

(** No event other than a mouse-down on the talk button starts a
    recording. *)
Lemma dispatch_grew_begin w ev :
  handlers_in_place w →
  ev ≠ MouseDown "talkButton" →
  grew_without BeginVoiceRecording w (exec (dispatch ev) w).
Proof.
  intros Hp Hev.
  assert (∀ A (m : M A),
    stable (grew_without BeginVoiceRecording w) m →
    grew_without BeginVoiceRecording w (exec m w)) as Hrun.
  { intros A m Hm. apply Hm, grew_without_refl. }
  destruct ev as [| |id|id|id| | |]; try (apply Hrun; walk leaf_grew; fail).
  - unfold dispatch, click, fire. rewrite exec_bind. unfold gets.
    destruct (document w !! id) as [e|] eqn:He; [|apply grew_without_refl].
    destruct (onclick e) as [h|] eqn:Hh; [|apply grew_without_refl].
    destruct (Hp id e He) as (Hc & _ & _).
    destruct (Hc h Hh) as [[-> ->]|[-> ->]]; apply Hrun; walk leaf_grew.
  - unfold dispatch, mousedown, fire. rewrite exec_bind. unfold gets.
    destruct (document w !! id) as [e|] eqn:He; [|apply grew_without_refl].
    destruct (onmousedown e) as [h|] eqn:Hh; [|apply grew_without_refl].
    destruct (Hp id e He) as (_ & Hd & _).
    destruct (Hd h Hh) as [-> ->]. done.
  - unfold dispatch, mouseup, fire. rewrite exec_bind. unfold gets.
    destruct (document w !! id) as [e|] eqn:He; [|apply grew_without_refl].
    destruct (onmouseup e) as [h|] eqn:Hh; [|apply grew_without_refl].
    destruct (Hp id e He) as (_ & _ & Hu).
    destruct (Hu h Hh) as [-> ->]. apply Hrun. walk leaf_grew.
Qed.

(** No event other than a mouse-up on the talk button stops a recording. *)
Lemma dispatch_grew_end w ev :
  handlers_in_place w →
  ev ≠ MouseUp "talkButton" →
  grew_without EndVoiceRecording w (exec (dispatch ev) w).
Proof.
  intros Hp Hev.
  assert (∀ A (m : M A),
    stable (grew_without EndVoiceRecording w) m →
    grew_without EndVoiceRecording w (exec m w)) as Hrun.
  { intros A m Hm. apply Hm, grew_without_refl. }
  destruct ev as [| |id|id|id| | |]; try (apply Hrun; walk leaf_grew; fail).
  - unfold dispatch, click, fire. rewrite exec_bind. unfold gets.
    destruct (document w !! id) as [e|] eqn:He; [|apply grew_without_refl].
    destruct (onclick e) as [h|] eqn:Hh; [|apply grew_without_refl].
    destruct (Hp id e He) as (Hc & _ & _).
    destruct (Hc h Hh) as [[-> ->]|[-> ->]]; apply Hrun; walk leaf_grew.
  - unfold dispatch, mousedown, fire. rewrite exec_bind. unfold gets.
    destruct (document w !! id) as [e|] eqn:He; [|apply grew_without_refl].
    destruct (onmousedown e) as [h|] eqn:Hh; [|apply grew_without_refl].
    destruct (Hp id e He) as (_ & Hd & _).
    destruct (Hd h Hh) as [-> ->]. apply Hrun. walk leaf_grew.
  - unfold dispatch, mouseup, fire. rewrite exec_bind. unfold gets.
    destruct (document w !! id) as [e|] eqn:He; [|apply grew_without_refl].
    destruct (onmouseup e) as [h|] eqn:Hh; [|apply grew_without_refl].
    destruct (Hp id e He) as (_ & _ & Hu).
    destruct (Hu h Hh) as [-> ->]. done.
Qed.

(** C8, as the code has it.  The two space-key handlers are placeholders:
    key-down does nothing at all and key-up only logs [End listening.].
    With its handlers installed and the voice feature present, the talk
    button's mouse-down logs and calls [beginVoiceRecording] and its mouse-up
    logs and calls [endVoiceRecording]; and in a session that starts from a
    fresh scene these are the only events that do: no other event, the space
    key included, ever starts or stops a recording. *)
Theorem talk_button_alone_records (w w0 : World) (evs : list Event) :
  dispatch (Keyboard " " KEYDOWN) w = (Normal tt, w)
  ∧ dispatch (Keyboard " " KEYUP) w =
      (Normal tt, log_effect (ConsoleLog (LogString "End listening.")) w)
  ∧ (∀ tb l, document w !! "talkButton" = Some tb → lex w = Some l →
       (onmousedown tb = Some TalkButtonMouseDown →
        dispatch (MouseDown "talkButton") w =
          (Normal tt, log_effect BeginVoiceRecording
                        (log_effect (ConsoleLog (LogString "Begin recording")) w)))
       ∧ (onmouseup tb = Some TalkButtonMouseUp →
          dispatch (MouseUp "talkButton") w =
            (Normal tt, log_effect EndVoiceRecording
                          (log_effect (ConsoleLog (LogString "End recording")) w))))
  ∧ (fresh w0 →
     (∀ ev, BeginVoiceRecording ∈ emitted (dispatch ev) (run evs w0) →
            ev = MouseDown "talkButton")
     ∧ (∀ ev, EndVoiceRecording ∈ emitted (dispatch ev) (run evs w0) →
              ev = MouseUp "talkButton")).
Proof.
  destruct (talk_keys_are_placeholders w) as (Hdown & Hup & Hmouse).
  split; [exact Hdown|]. split; [exact Hup|]. split; [exact Hmouse|].
  intros Hf. pose proof (run_handlers_in_place evs w0 Hf) as Hp. split.
  - intros ev Hin.
    assert (ev ≠ MouseDown "talkButton" → False) as Hnot.
    { intros Hev. revert Hin. apply grew_without_emitted.
      by apply dispatch_grew_begin. }
    destruct ev as [| | |id| | | |]; try (by destruct Hnot).
    destruct (decide (id = "talkButton")) as [->|Hid]; [done|].
    destruct Hnot. congruence.
  - intros ev Hin.
    assert (ev ≠ MouseUp "talkButton" → False) as Hnot.
    { intros Hev. revert Hin. apply grew_without_emitted.
      by apply dispatch_grew_end. }
    destruct ev as [| | | |id| | |]; try (by destruct Hnot).
    destruct (decide (id = "talkButton")) as [->|Hid]; [done|].
    destruct Hnot. congruence.
Qed.

Lemma talk_button_alone_records_witness :
  dispatch (Keyboard " " KEYDOWN) started = (Normal tt, started)
  ∧ dispatch (MouseDown "talkButton") started =
      (Normal tt, log_effect BeginVoiceRecording
                    (log_effect (ConsoleLog (LogString "Begin recording")) started))
  ∧ MouseDown "talkButton" = MouseDown "talkButton".
Proof.
  pose proof (talk_button_alone_records started standalone
                [SceneStarts; TimerFires]) as (Hdown & _ & Hmouse & Honly).
  split; [exact Hdown|]. split.
  - refine (proj1 (Hmouse
      (MkElement [] "" None (Some TalkButtonMouseDown) (Some TalkButtonMouseUp))
      (MkLex "BookTrip" "Dev" registered) _ _) _);
      [vm_compute; reflexivity | vm_compute; reflexivity | reflexivity].
  - apply (proj1 (Honly (newScene_fresh _))). vm_compute. do 2 constructor.
Defined.
